(** * Thread manager and delta streaming of [backend/agent.py]

    A shallow embedding of the conversation-thread operations of
    [backend/agent.py] ([_extract_content], [search_streaming],
    [get_thread_list], [rename_thread], [delete_thread]) and of the
    frame generator of [backend/app.py] ([api_chat]), followed by the
    properties the specification states about them.

    Python [str] values are [string]s; [dict]s with string keys are
    [gmap string _]; Python [set]s of thread ids are [gset string]; SQL
    tables are lists of rows.  Exceptions are explicit outcomes. *)

From Stdlib Require Import ZArith Lia.
From stdpp Require Import base option list strings gmap fin_maps.

Local Open Scope Z_scope.
Local Open Scope nat_scope.

(** ** Python string primitives *)

Module PyStr.

(** [text.startswith(prefix)]. *)
Fixpoint startswith (text pre : string) {struct pre} : bool :=
  match pre, text with
  | EmptyString, _ => true
  | String _ _, EmptyString => false
  | String a pre', String b text' =>
      if Ascii.eqb a b then startswith text' pre' else false
  end.

(** [text[n:]]. *)
Fixpoint slice_from (n : nat) (text : string) {struct n} : string :=
  match n, text with
  | O, _ => text
  | S _, EmptyString => EmptyString
  | S n', String _ text' => slice_from n' text'
  end.

(** Truthiness of a [str]: [bool(text)]. *)
Definition truthy (text : string) : bool :=
  match text with
  | EmptyString => false
  | String _ _ => true
  end.

(** [sep.join(parts)] for [sep = ""]. *)
Definition join_empty (parts : list string) : string :=
  fold_right String.append EmptyString parts.

End PyStr.

(** ** Message content *)

(** A content block of a LangChain message: a bare [str], a [dict]
    (string keys; the ["text"] entry of a text block is a [str]), or any
    other object. *)
Inductive block : Type :=
| BStr (s : string)
| BDict (d : gmap string string)
| BOther.

(** [message.content]: a [str] or a [list] of blocks. *)
Inductive content : Type :=
| CStr (s : string)
| CList (blocks : list block).

(** One iteration of the loop of [_extract_content]: the effect of a
    block on [text_parts]. *)
Definition extract_step (text_parts : list string) (b : block) : list string :=
  match b with
  | BDict d =>
      match d !! "text" with
      | Some t => text_parts ++ [t]
      | None => text_parts
      end
  | BStr s => text_parts ++ [s]
  | BOther => text_parts
  end.

(** [_extract_content(content)]. *)
Definition _extract_content (c : content) : string :=
  match c with
  | CList blocks =>
      let text_parts := fold_left extract_step blocks [] in
      PyStr.join_empty text_parts
  | CStr s => s
  end.

(** The textual part of a block, when it has one. *)
Definition block_text (b : block) : option string :=
  match b with
  | BStr s => Some s
  | BDict d => d !! "text"
  | BOther => None
  end.

(** ** Messages and stream items *)

(** A message object as the code observes it. *)
Record message : Type := Message {
  class_name : string;           (* type(message).__name__ *)
  msg_type : option string;      (* message.type, when hasattr(message, "type") *)
  msg_content : option content;  (* getattr(message, "content", None) *)
  msg_id : option string         (* message.id, when hasattr(message, "id") *)
}.

(** The values an engine stream may yield: message objects, state-like
    dicts (only their ["messages"] entry is read), tuples, anything
    else (with its class name). *)
#[warnings="-register-all"]
Inductive pyobj : Type :=
| PMsg (m : message)
| PDict (messages : option (list pyobj))
| PTuple (elems : list pyobj)
| POther (cls : string).

(** [type(obj).__name__]. *)
Definition type_name (o : pyobj) : string :=
  match o with
  | PMsg m => class_name m
  | PDict _ => "dict"
  | PTuple _ => "tuple"
  | POther cls => cls
  end.

(** The nested helper [_messages_from_stream_item(item)]. *)
Definition _messages_from_stream_item (item : pyobj) : option (list pyobj) :=
  match item with
  | PDict messages => messages
  | PTuple [_; payload] =>
      match payload with
      | PDict messages => messages
      | PTuple [maybe_state; _] =>
          match maybe_state with
          | PDict messages => messages
          | _ => None
          end
      | _ => None
      end
  | _ => None
  end.

(** The nested helper [_extract_message_text(message)]. *)
Definition _extract_message_text (o : pyobj) : option string :=
  match o with
  | PMsg m =>
      match msg_content m with
      | None => None
      | Some c => Some (_extract_content c)
      end
  | _ => None
  end.

(** ** Stream events *)

Inductive event : Type :=
| EMeta (thread_id : string) (message_id : option string)
| EDelta (content : string)
| EFinal (response : string) (thread_id : string) (message_id : option string).

(** The message chunk the loop body selects from an item, or [None]
    when the body reaches [continue] before selecting one. *)
Definition message_chunk_of (item : pyobj) : option pyobj :=
  match item with
  | PTuple (x :: _) => Some x
  | _ =>
      match _messages_from_stream_item item with
      | None | Some [] => None
      | Some messages => last messages
      end
  end.

Definition is_ai_class (name : string) : bool :=
  bool_decide (name = "AIMessage") || bool_decide (name = "AIMessageChunk").

(** The text the loop body reaches the delta computation with, or
    [None] when the item is skipped by one of the three [continue]s. *)
Definition chunk_text (item : pyobj) : option string :=
  match message_chunk_of item with
  | None => None
  | Some message_chunk =>
      if is_ai_class (type_name message_chunk) then
        match _extract_message_text message_chunk with
        | None => None
        | Some text => if PyStr.truthy text then Some text else None
        end
      else None
  end.

(** The delta computed from [last_emitted] and the new [text]. *)
Definition compute_delta (last_emitted text : string) : string :=
  if PyStr.startswith text last_emitted
  then PyStr.slice_from (String.length last_emitted) text
  else text.

(** One iteration of [for item in stream_iter]: the new value of
    [last_emitted] and the event yielded, if any. *)
Definition stream_step (last_emitted : string) (item : pyobj)
  : string * option event :=
  match chunk_text item with
  | None => (last_emitted, None)
  | Some text =>
      let delta := compute_delta last_emitted text in
      if PyStr.truthy delta
      then (text, Some (EDelta delta))
      else (last_emitted, None)
  end.

(** The whole loop over the items the iterator yields: the events
    yielded, in order, and the final value of [last_emitted]. *)
Fixpoint stream_loop (last_emitted : string) (items : list pyobj)
  : list event * string :=
  match items with
  | [] => ([], last_emitted)
  | item :: rest =>
      let '(last_emitted', evt) := stream_step last_emitted item in
      let '(evts, final_text) := stream_loop last_emitted' rest in
      (from_option (λ e, [e]) [] evt ++ evts, final_text)
  end.

(** ** The execution engine, as [search_streaming] uses it *)

Record config : Type := Config {
  cfg_thread_id : string;
  cfg_checkpoint_id : option string
}.

(** How an iterator ends. *)
Inductive iter_end : Type :=
| StopIteration
| IterRaises (exc : string).

(** What a call of [agent.stream] does: raise at the call, or return an
    iterator that yields [items] and then ends. *)
Inductive stream_call : Type :=
| CallTypeError
| CallRaises (exc : string)
| CallIter (items : list pyobj) (fin : iter_end).

(** The compiled agent (the cached singleton of [get_search_agent]):
    its behaviour on the calls [search_streaming] makes. *)
Record agent : Type := Agent {
  (* agent.stream(input, config, stream_mode="messages") *)
  agent_stream_messages : config → string → stream_call;
  (* agent.stream(input, config) *)
  agent_stream_plain : config → string → stream_call;
  (* agent.get_state(config).config.get("configurable"), or the
     exception the call raises *)
  agent_get_state : config → string + option (gmap string string)
}.

(** How a generator finishes: by returning, or by an exception that
    reaches whoever iterates it. *)
Inductive outcome : Type :=
| Returned
| Raised (exc : string).

Record trace : Type := Trace {
  events : list event;
  finish : outcome
}.

(** The iterator [stream_iter] that the [try]/[except TypeError] of
    [search_streaming] ends up with, or the exception that escapes. *)
Definition open_stream (ag : agent) (cfg : config) (query : string)
  : string + (list pyobj * iter_end) :=
  match agent_stream_messages ag cfg query with
  | CallIter items fin => inr (items, fin)
  | CallRaises exc => inl exc
  | CallTypeError =>
      match agent_stream_plain ag cfg query with
      | CallIter items fin => inr (items, fin)
      | CallRaises exc => inl exc
      | CallTypeError => inl "TypeError"
      end
  end.

(** [search_streaming(query, thread_id, message_id)], run to the end.
    [fresh_uuid] is the value of [str(uuid.uuid4())]. *)
Definition search_streaming (ag : agent) (fresh_uuid : string)
    (query : string) (thread_id message_id : option string) : trace :=
  let thread_id := default fresh_uuid thread_id in
  let cfg := Config thread_id message_id in
  let meta := EMeta thread_id message_id in
  match open_stream ag cfg query with
  | inl exc => Trace [meta] (Raised exc)
  | inr (items, fin) =>
      let '(deltas, last_emitted) := stream_loop "" items in
      match fin with
      | IterRaises exc => Trace (meta :: deltas) (Raised exc)
      | StopIteration =>
          match agent_get_state ag cfg with
          | inl exc => Trace (meta :: deltas) (Raised exc)
          | inr configurable =>
              let checkpoint_id := default ∅ configurable !! "checkpoint_id" in
              Trace (meta :: deltas ++ [EFinal last_emitted thread_id checkpoint_id])
                    Returned
          end
      end
  end.

(** ** The frame generator of [api_chat] *)

(** The four frame formats of [event_generator]: [0:"text"], the finish
    frame [d:{...}], the annotation frame [8:[{...}]] and the error
    frame [3:"message"]. *)
Inductive frame : Type :=
| FText (content : string)
| FFinish
| FAnnotation (thread_id : string) (message_id : option string)
| FError (message : string).

(** The body of [for evt in search_streaming(...)]: the locals
    [thread_id] and [message_id], and the frame yielded, if any. *)
Definition frame_step (st : option string * option string) (evt : event)
  : (option string * option string) * option frame :=
  match evt with
  | EMeta tid mid => ((Some tid, mid), None)
  | EDelta c => (st, Some (FText c))
  | EFinal _ tid mid => ((Some tid, mid), None)
  end.

(** The loop of [event_generator] over the events yielded before the
    generator finished: the frames, in order, and the final locals. *)
Fixpoint frame_loop (st : option string * option string) (evts : list event)
  : list frame * (option string * option string) :=
  match evts with
  | [] => ([], st)
  | evt :: rest =>
      let '(st', fr) := frame_step st evt in
      let '(frs, st_end) := frame_loop st' rest in
      (from_option (λ f, [f]) [] fr ++ frs, st_end)
  end.

(** [event_generator()] of [api_chat], over a run of
    [search_streaming]. *)
Definition event_generator (run : trace) : list frame :=
  let '(frames, (thread_id, message_id)) := frame_loop (None, None) (events run) in
  match finish run with
  | Returned =>
      frames ++ [FFinish] ++
      match thread_id with
      | Some tid => if PyStr.truthy tid then [FAnnotation tid message_id] else []
      | None => []
      end
  | Raised exc => frames ++ [FError exc]
  end.

(** ** The two stores *)

(** A row of the [checkpoints] table of the checkpoint log: its thread,
    its checkpoint id, and the [messages] channel of the snapshot. *)
Record checkpoint_row : Type := CheckpointRow {
  ck_thread_id : string;
  ck_checkpoint_id : string;
  ck_messages : list message   (* channel_values.get("messages", []) *)
}.

(** A row of the [writes] table (intermediate writes of a checkpoint). *)
Record write_row : Type := WriteRow {
  wr_thread_id : string;
  wr_checkpoint_id : string;
  wr_channel : string
}.

(** [class ThreadMetadata(SQLModel, table=True)].  [title] holds
    whatever the constructor was given: a [str] for the records
    [rename_thread] stores, the [content] of a message for the transient
    records of [get_thread_list]. *)
Record ThreadMetadata : Type := Build_ThreadMetadata {
  thread_id : string;
  title : content;
  created_at : Z;
  updated_at : Z
}.

(** The SQLite file: the two tables of the checkpoint log and the
    [threadmetadata] table. Rows are kept in insertion order. *)
Record database : Type := Database {
  checkpoints : list checkpoint_row;
  writes : list write_row;
  thread_metadata : list ThreadMetadata
}.

(** The rows of a thread. *)
Definition checkpoints_of (tid : string) (db : database) : list checkpoint_row :=
  filter (λ r, ck_thread_id r = tid) (checkpoints db).

Definition writes_of (tid : string) (db : database) : list write_row :=
  filter (λ r, wr_thread_id r = tid) (writes db).

(** [session.exec(select(ThreadMetadata).where(thread_id == tid)).first()]. *)
Definition metadata_first (tid : string) (db : database) : option ThreadMetadata :=
  head (filter (λ m, thread_id m = tid) (thread_metadata db)).

(** [checkpointer.get_tuple({"configurable": {"thread_id": tid}})]: the
    most recent checkpoint of the thread, [None] when it has none. *)
Definition get_tuple (tid : string) (db : database) : option checkpoint_row :=
  last (checkpoints_of tid db).

(** [datetime.now()]: [clock k] is the [k]-th reading an operation
    takes. *)
Definition clock : Type := nat → Z.

(** Truthiness of a message content or title ([None], [""] and [[]]
    are false). *)
Definition content_truthy (c : option content) : bool :=
  match c with
  | None => false
  | Some (CStr s) => PyStr.truthy s
  | Some (CList []) => false
  | Some (CList (_ :: _)) => true
  end.

(** ** [get_thread_list] *)

(** The first loop: the set of thread ids found by scanning every
    checkpoint ([if thread_id: thread_ids.add(thread_id)]). *)
Definition scan_thread_ids (db : database) : gset string :=
  fold_left
    (λ (thread_ids : gset string) (r : checkpoint_row),
       if PyStr.truthy (ck_thread_id r) then thread_ids ∪ {[ck_thread_id r]}
       else thread_ids)
    (checkpoints db) ∅.

(** [{metadata.thread_id: metadata for metadata in results}] over the
    stored records whose id is in [thread_ids]. *)
Definition build_metadata_map (thread_ids : gset string) (db : database)
  : gmap string ThreadMetadata :=
  let results := filter (λ m, thread_id m ∈ thread_ids) (thread_metadata db) in
  fold_left (λ (acc : gmap string ThreadMetadata) m, <[thread_id m := m]> acc)
            results ∅.

(** The inner search [for msg in messages: ... break]: the content of
    the first message whose [type] is ["human"]. *)
Fixpoint first_human_content (messages : list message) : option content :=
  match messages with
  | [] => None
  | msg :: rest =>
      if bool_decide (msg_type msg = Some "human") then msg_content msg
      else first_human_content rest
  end.

(** The fallback title of a thread without stored metadata. *)
Definition fallback_title (tid : string) (db : database) : option content :=
  match get_tuple tid db with
  | None => None
  | Some state_tuple => first_human_content (ck_messages state_tuple)
  end.

(** One iteration of [for thread_id in thread_ids]; the state is
    [thread_list] and the number of clock readings taken so far. *)
Definition list_step (clk : clock) (db : database)
    (metadata_map : gmap string ThreadMetadata)
    (st : list ThreadMetadata * nat) (tid : string)
  : list ThreadMetadata * nat :=
  let '(thread_list, k) := st in
  match metadata_map !! tid with
  | Some metadata => (thread_list ++ [metadata], k)
  | None =>
      let title := fallback_title tid db in
      if content_truthy title then
        match title with
        | Some t =>
            (thread_list ++ [Build_ThreadMetadata tid t (clk k) (clk (S k))],
             S (S k))
        | None => (thread_list, k)
        end
      else (thread_list, k)
  end.

(** [get_thread_list()]. *)
Definition get_thread_list (clk : clock) (db : database) : list ThreadMetadata :=
  let thread_ids := scan_thread_ids db in
  let metadata_map := build_metadata_map thread_ids db in
  (fold_left (list_step clk db metadata_map) (elements thread_ids) ([], 0)).1.

(** ** [rename_thread] *)

(** The update branch of [rename_thread]
    ([existing.title = new_title; existing.updated_at = datetime.now()]),
    as the commit applies it: the two columns of the row with this key
    change. *)
Definition retitle (clk : clock) (tid new_title : string) (existing : ThreadMetadata)
  : ThreadMetadata :=
  if bool_decide (thread_id existing = tid)
  then Build_ThreadMetadata (thread_id existing) (CStr new_title)
                            (created_at existing) (clk 0)
  else existing.

(** The body of the [with Session(engine)] block of [rename_thread],
    committed. *)
Definition upsert_title (clk : clock) (tid : string) (new_title : string)
    (rows : list ThreadMetadata) : list ThreadMetadata :=
  match head (filter (λ m, thread_id m = tid) rows) with
  | Some _ => retitle clk tid new_title <$> rows
  | None =>
      (* metadata = ThreadMetadata(thread_id=thread_id, title=new_title);
         session.add(metadata) *)
      rows ++ [Build_ThreadMetadata tid (CStr new_title) (clk 0) (clk 1)]
  end.

(** [rename_thread(thread_id, new_title)].  [session_fails] says
    whether a statement of the [try] block raises; the [except] branch
    then returns [False] with nothing committed. *)
Definition rename_thread (clk : clock) (session_fails : bool)
    (tid : string) (new_title : string) (db : database) : bool * database :=
  match get_tuple tid db with
  | None => (false, db)
  | Some _ =>
      if session_fails then (false, db)
      else (true, Database (checkpoints db) (writes db)
                           (upsert_title clk tid new_title (thread_metadata db)))
  end.

(** ** [delete_thread] *)

(** Where, if anywhere, a statement of the [try] block of
    [delete_thread] raises. *)
Inductive delete_fault : Type :=
| NoFault
| FaultCount        (* the SELECT COUNT( * ) query *)
| FaultDeleteRows   (* the two DELETEs, or conn.commit() *)
| FaultMetadata.    (* the metadata session, after conn.commit() *)

(** [delete_thread(thread_id)]. *)
Definition delete_thread (fault : delete_fault) (tid : string) (db : database)
  : bool * database :=
  match fault with
  | FaultCount => (false, db)
  | _ =>
      let count := length (checkpoints_of tid db) in
      if bool_decide (count = 0) then (false, db)
      else
        match fault with
        | FaultDeleteRows => (false, db)   (* conn.rollback() *)
        | _ =>
            let committed :=
              Database (filter (λ r, ck_thread_id r ≠ tid) (checkpoints db))
                       (filter (λ r, wr_thread_id r ≠ tid) (writes db))
                       (thread_metadata db) in
            match fault with
            | FaultMetadata => (false, committed)
            | _ =>
                (true,
                 Database (checkpoints committed) (writes committed)
                          (match metadata_first tid committed with
                           | Some _ =>
                               filter (λ m, thread_id m ≠ tid)
                                      (thread_metadata committed)
                           | None => thread_metadata committed
                           end))
            end
        end
  end.

(** ** [search]: the buffered path *)

(** What [search] returns. *)
Record search_result : Type := SearchResult {
  sr_response : string;
  sr_thread_id : string;
  sr_message_id : option string
}.

(** [search(query, thread_id, message_id)].  [invoke cfg query] is
    [agent.invoke(input, config)["messages"]], or the exception the
    call raises; the state lookup is the one of [search_streaming].  A
    message object always has a [content] that is a [str] or a [list],
    so [msg_content = None] stands for an object without the attribute,
    on which [last_message.content] raises. *)
Definition search (invoke : config → string → string + list message)
    (ag : agent) (fresh_uuid : string)
    (query : string) (thread_id message_id : option string)
  : string + search_result :=
  let thread_id := default fresh_uuid thread_id in
  let cfg := Config thread_id message_id in
  match invoke cfg query with
  | inl exc => inl exc
  | inr messages =>
      match last messages with
      | None => inl "IndexError"
      | Some last_message =>
          match msg_content last_message with
          | None => inl "AttributeError"
          | Some content =>
              let response :=
                match content with
                | CList blocks =>
                    PyStr.join_empty (fold_left extract_step blocks [])
                | CStr s => s
                end in
              match agent_get_state ag cfg with
              | inl exc => inl exc
              | inr configurable =>
                  inr (SearchResult response thread_id
                         (default ∅ configurable !! "checkpoint_id"))
              end
          end
      end
  end.

(** ** [get_thread] and [get_thread_history] *)

(** An entry of the list [get_thread] returns. *)
Record message_view : Type := MessageView {
  mv_type : string;
  mv_content : string;
  mv_id : option string
}.

(** The loop of [get_thread] over [messages]; it raises at the first
    message without a [content] attribute. *)
Fixpoint message_views (messages : list message) : string + list message_view :=
  match messages with
  | [] => inr []
  | msg :: rest =>
      match msg_content msg with
      | None => inl "AttributeError"
      | Some c =>
          match message_views rest with
          | inl exc => inl exc
          | inr message_list =>
              inr (MessageView (default (class_name msg) (msg_type msg))
                               (_extract_content c) (msg_id msg)
                   :: message_list)
          end
      end
  end.

(** [get_thread(thread_id)].  [agent.get_state(config).values] holds
    the channels of the thread's most recent checkpoint, and is empty
    when the thread has none. *)
Definition get_thread (tid : string) (db : database) : string + list message_view :=
  let messages :=
    match get_tuple tid db with
    | Some state => ck_messages state
    | None => []
    end in
  message_views messages.

(** An entry of the list [get_thread_history] returns. *)
Record history_entry : Type := HistoryEntry {
  he_message_id : option string;
  he_created_at : Z;
  he_message_count : nat;
  he_last_message_type : option string;
  he_last_message_content : option string
}.

(** The body of the loop of [get_thread_history] for one state.
    [stamp] gives the [created_at] of a snapshot. *)
Definition history_entry_of (stamp : checkpoint_row → Z) (state : checkpoint_row)
  : string + history_entry :=
  let messages := ck_messages state in
  match last messages with
  | None =>
      inr (HistoryEntry (Some (ck_checkpoint_id state)) (stamp state)
                        (length messages) None None)
  | Some last_message =>
      match msg_content last_message with
      | None => inl "AttributeError"
      | Some c =>
          inr (HistoryEntry (Some (ck_checkpoint_id state)) (stamp state)
                            (length messages)
                            (Some (class_name last_message))
                            (Some (_extract_content c)))
      end
  end.

Fixpoint history_loop (stamp : checkpoint_row → Z) (states : list checkpoint_row)
  : string + list history_entry :=
  match states with
  | [] => inr []
  | state :: rest =>
      match history_entry_of stamp state with
      | inl exc => inl exc
      | inr entry =>
          match history_loop stamp rest with
          | inl exc => inl exc
          | inr history => inr (entry :: history)
          end
      end
  end.

(** [get_thread_history(thread_id)].  [agent.get_state_history(config)]
    yields the thread's snapshots, most recent first. *)
Definition get_thread_history (stamp : checkpoint_row → Z) (tid : string)
    (db : database) : string + list history_entry :=
  history_loop stamp (reverse (checkpoints_of tid db)).

(** ** The endpoints of [app.py] on rename and delete *)

(** [class RenameThreadResponse(BaseModel)]. *)
Record RenameThreadResponse : Type := Build_RenameThreadResponse {
  resp_success : bool;
  resp_message : option string
}.

Definition respond (success : bool) : RenameThreadResponse :=
  if success then Build_RenameThreadResponse true None
  else Build_RenameThreadResponse false (Some "Thread not found").

(** [api_rename_thread(thread_id, request)]. *)
Definition api_rename_thread (clk : clock) (session_fails : bool)
    (tid title : string) (db : database) : RenameThreadResponse * database :=
  let '(success, db') := rename_thread clk session_fails tid title db in
  (respond success, db').

(** [api_delete_thread(thread_id)]. *)
Definition api_delete_thread (fault : delete_fault) (tid : string) (db : database)
  : RenameThreadResponse * database :=
  let '(success, db') := delete_thread fault tid db in
  (respond success, db').

(** ** The module-level singletons of [agent.py] *)

(** A checkpointer object: the one [get_checkpointer] creates (the
    [generation]-th it created, on the file at [path]), or one a caller
    made. Two objects are equal when they are the same object. *)
Inductive saver : Type :=
| DefaultSaver (path : string) (generation : nat)
| CustomSaver (name : nat).

Global Instance saver_eq_dec : EqDecision saver.
Proof. solve_decision. Defined.

Definition saver_path (c : saver) : option string :=
  match c with
  | DefaultSaver path _ => Some path
  | CustomSaver _ => None
  end.

(** A compiled agent: the [serial]-th that [create_deep_agent] built,
    with the checkpointer it was given. *)
Record compiled_agent : Type := CompiledAgent {
  agent_serial : nat;
  agent_checkpointer : saver
}.

(** The globals of the module, with the number of savers and agents
    created so far. *)
Record module_state : Type := ModuleState {
  CHECKPOINT_DB_PATH : string;
  _metadata_engine : option string;   (* the file the engine was created on *)
  _checkpointer : option saver;
  _agent : option compiled_agent;
  savers_created : nat;
  agents_built : nat
}.

(** The module as imported, before any call. *)
Definition module_loaded (path : string) : module_state :=
  ModuleState path None None None 0 0.

(** [get_metadata_engine()]: the file the returned engine is on. *)
Definition get_metadata_engine (g : module_state) : string * module_state :=
  match _metadata_engine g with
  | Some engine => (engine, g)
  | None =>
      (CHECKPOINT_DB_PATH g,
       ModuleState (CHECKPOINT_DB_PATH g) (Some (CHECKPOINT_DB_PATH g))
                   (_checkpointer g) (_agent g) (savers_created g) (agents_built g))
  end.

(** [get_checkpointer()]. *)
Definition get_checkpointer (g : module_state) : saver * module_state :=
  match _checkpointer g with
  | Some c => (c, g)
  | None =>
      let c := DefaultSaver (CHECKPOINT_DB_PATH g) (savers_created g) in
      (c, ModuleState (CHECKPOINT_DB_PATH g) (_metadata_engine g) (Some c)
                      (_agent g) (S (savers_created g)) (agents_built g))
  end.

(** [get_search_agent(checkpointer)], when building the model and the
    agent succeeds. *)
Definition get_search_agent (checkpointer : option saver) (g : module_state)
  : compiled_agent * module_state :=
  match checkpointer, _agent g with
  | None, Some cached => (cached, g)
  | _, _ =>
      let '(checkpointer, g1) :=
        match checkpointer with
        | None => get_checkpointer g
        | Some c => (c, g)
        end in
      let agent := CompiledAgent (agents_built g1) checkpointer in
      let g2 :=
        ModuleState (CHECKPOINT_DB_PATH g1) (_metadata_engine g1) (_checkpointer g1)
                    (_agent g1) (savers_created g1) (S (agents_built g1)) in
      let '(default_checkpointer, g3) := get_checkpointer g2 in
      if bool_decide (checkpointer = default_checkpointer)
      then (agent,
            ModuleState (CHECKPOINT_DB_PATH g3) (_metadata_engine g3)
                        (_checkpointer g3) (Some agent)
                        (savers_created g3) (agents_built g3))
      else (agent, g3)
  end.

(** What the fixture [temp_checkpoint_db] of the tests does before a
    test: [CHECKPOINT_DB_PATH = temp_db; _checkpointer = None]. *)
Definition fixture_setup (temp_db : string) (g : module_state) : module_state :=
  ModuleState temp_db (_metadata_engine g) None (_agent g)
              (savers_created g) (agents_built g).

(** The singletons agree on one file: a cached agent holds the current
    checkpointer, which is on [CHECKPOINT_DB_PATH], as is the metadata
    engine. *)
Definition one_file (g : module_state) : Prop :=
  (∀ a, _agent g = Some a → _checkpointer g = Some (agent_checkpointer a)) ∧
  (∀ c, _checkpointer g = Some c → saver_path c = Some (CHECKPOINT_DB_PATH g)) ∧
  (∀ p, _metadata_engine g = Some p → p = CHECKPOINT_DB_PATH g).

(** The text frames of a response, in order. *)
Definition frame_texts (frames : list frame) : list string :=
  omap (λ f, match f with FText c => Some c | _ => None end) frames.

(** No text has its predecessor as a prefix: every chunk is a reset, as
    when the engine yields increments rather than cumulative texts. *)
Fixpoint incremental (texts : list string) : Prop :=
  match texts with
  | a :: (b :: _) as rest => (∀ suf, b ≠ a +:+ suf) ∧ incremental rest
  | _ => True
  end.

(** The titles under which a thread id is listed. *)
Definition listed_titles (db : database) (tid : string) : list content :=
  if decide (tid ∈ scan_thread_ids db) then
    match metadata_first tid db with
    | Some stored => [title stored]
    | None =>
        match fallback_title tid db with
        | Some t => if content_truthy (Some t) then [t] else []
        | None => []
        end
    end
  else [].

(** ** Reading a run, and the specification's vocabulary *)

(** The [content] fields of the delta events of a run, in order. *)
Definition delta_texts (evts : list event) : list string :=
  omap (λ e, match e with EDelta c => Some c | _ => None end) evts.

(** The [response] field of the final event of a run, if it has one. *)
Definition final_response (evts : list event) : option string :=
  match last evts with
  | Some (EFinal response _ _) => Some response
  | _ => None
  end.

(** The items the iterator of a run yielded. *)
Definition streamed_items (ag : agent) (cfg : config) (query : string)
  : list pyobj :=
  match open_stream ag cfg query with
  | inr (items, _) => items
  | inl _ => []
  end.

(** The delta of the specification's algorithm: the remaining suffix
    when [text] has [last_emitted] as a prefix, the entire [text]
    otherwise. *)
Inductive spec_delta (last_emitted text : string) : string → Prop :=
| spec_delta_suffix (suf : string) :
    text = last_emitted +:+ suf → spec_delta last_emitted text suf
| spec_delta_reset :
    (∀ suf, text ≠ last_emitted +:+ suf) → spec_delta last_emitted text text.

(** A sequence of texts is cumulative when each one has its
    predecessor as a prefix (no reset). *)
Fixpoint cumulative (texts : list string) : Prop :=
  match texts with
  | a :: (b :: _) as rest => (∃ suf, b = a +:+ suf) ∧ cumulative rest
  | _ => True
  end.

(** The variants of the specification's StreamEvent. *)
Inductive event_kind : Type := KMeta | KDelta | KFinal | KError.

(** The variant a yielded dict belongs to, by its ["type"] entry. *)
Definition kind_of (e : event) : event_kind :=
  match e with
  | EMeta _ _ => KMeta
  | EDelta _ => KDelta
  | EFinal _ _ _ => KFinal
  end.

Definition is_delta (k : event_kind) : bool :=
  match k with KDelta => true | _ => false end.

Definition is_terminal (k : event_kind) : bool :=
  match k with KFinal | KError => true | _ => false end.

(** The specification's shape of a stream: one meta first, then deltas,
    then exactly one terminal event. *)
Definition well_terminated (kinds : list event_kind) : bool :=
  match kinds with
  | KMeta :: rest =>
      match reverse rest with
      | term :: deltas_rev => is_terminal term && forallb is_delta deltas_rev
      | [] => false
      end
  | _ => false
  end.

(** What one thread id contributes to the list, at clock reading [k]. *)
Definition listed (clk : clock) (db : database)
    (metadata_map : gmap string ThreadMetadata) (tid : string) (k : nat)
  : list ThreadMetadata :=
  match metadata_map !! tid with
  | Some metadata => [metadata]
  | None =>
      match fallback_title tid db with
      | Some t =>
          if content_truthy (Some t)
          then [Build_ThreadMetadata tid t (clk k) (clk (S k))] else []
      | None => []
      end
  end.

(** The primary key of the metadata table. *)
Definition primary_key (db : database) : Prop :=
  NoDup (thread_id <$> thread_metadata db).

(** ** Sample data *)

Module Sample.

Definition ai (text : string) : message :=
  Message "AIMessageChunk" (Some "AIMessageChunk") (Some (CStr text)) None.

Definition human (text : string) : message :=
  Message "HumanMessage" (Some "human") (Some (CStr text)) (Some "m1").

Definition tool (text : string) : message :=
  Message "ToolMessage" (Some "tool") (Some (CStr text)) None.

(** An item as [stream_mode="messages"] yields it. *)
Definition chunk (m : message) : pyobj := PTuple [PMsg m; PDict None].

(** An engine whose iterator yields [items] and ends with [fin], and
    whose state afterwards carries checkpoint ["ck-2"]. *)
Definition engine (items : list pyobj) (fin : iter_end) : agent :=
  Agent (λ _ _, CallIter items fin)
        (λ _ _, CallIter items fin)
        (λ cfg, inr (Some (<["thread_id" := cfg_thread_id cfg]>
                             {["checkpoint_id" := "ck-2"]}))).

(** Cumulative chunks. *)
Definition growing : list pyobj :=
  [chunk (ai "He"); chunk (tool "x"); chunk (ai "Hello"); chunk (ai "Hello")].

(** A later chunk that does not extend the text emitted so far. *)
Definition resetting : list pyobj := [chunk (ai "ab"); chunk (ai "cd")].

(** A store with two threads; only ["t2"] has a metadata record. *)
Definition db : database :=
  Database
    [CheckpointRow "t1" "c1" [ai "hi"];
     CheckpointRow "t2" "c2" [human "question"; ai "answer"];
     CheckpointRow "t2" "c3" [human "question"; ai "answer"; human "more"]]
    [WriteRow "t2" "c2" "messages"]
    [Build_ThreadMetadata "t2" (CStr "Old title") 10%Z 20%Z].

Definition clk : clock := λ k, (100 + Z.of_nat k)%Z.

End Sample.

(** More sample data: a buffered engine call, a store with a thread
    whose id is the empty string, and a module state after start-up. *)
Module Sample2.

Definition invoke : config → string → string + list message :=
  λ _ _, inr [Sample.human "q"; Sample.ai "Hello"].

Definition stamp : checkpoint_row → Z := λ r, Z.of_nat (length (ck_messages r)).

Definition db_empty_id : database :=
  Database [CheckpointRow "" "c0" [Sample.human "hidden"]] [] [].

Definition started : module_state :=
  (get_search_agent None (module_loaded "checkpoints.sqlite")).2.

End Sample2.

(** * Properties *)

(** ** Strings *)

Module PyStrFacts.
Import PyStr.

Lemma truthy_false (s : string) : truthy s = false ↔ s = "".
Proof. destruct s; simpl; split; congruence. Qed.

Lemma truthy_true (s : string) : truthy s = true ↔ s ≠ "".
Proof. destruct s; simpl; split; congruence. Qed.

Lemma append_cons (a : Ascii.ascii) (s t : string) :
  String a s +:+ t = String a (s +:+ t).
Proof. reflexivity. Qed.

Lemma append_nil_l (s : string) : "" +:+ s = s.
Proof. reflexivity. Qed.

Lemma append_nil_r (s : string) : s +:+ "" = s.
Proof.
  induction s as [|a s IH]; [done|]. by rewrite append_cons, IH.
Qed.

Lemma append_assoc (s t u : string) : (s +:+ t) +:+ u = s +:+ t +:+ u.
Proof.
  induction s as [|a s IH]; [done|]. by rewrite !append_cons, IH.
Qed.

Lemma startswith_append (pre suf : string) : startswith (pre +:+ suf) pre = true.
Proof.
  induction pre as [|a pre IH]; [done|].
  rewrite append_cons. simpl. by rewrite Ascii.eqb_refl.
Qed.

Lemma slice_from_append (pre suf : string) :
  slice_from (String.length pre) (pre +:+ suf) = suf.
Proof.
  induction pre as [|a pre IH]; [by destruct suf|].
  rewrite append_cons. simpl. apply IH.
Qed.

Lemma startswith_slice (text pre : string) :
  startswith text pre = true →
  text = pre +:+ slice_from (String.length pre) text.
Proof.
  revert text. induction pre as [|a pre IH]; intros text.
  - by destruct text.
  - destruct text as [|b text]; [done|]. simpl.
    destruct (Ascii.eqb a b) eqn:Hab; [|done].
    apply Ascii.eqb_eq in Hab as ->. intros H.
    rewrite append_cons. f_equal. by apply IH.
Qed.

(** [startswith] decides "is a prefix of". *)
Lemma startswith_spec (text pre : string) :
  startswith text pre = true ↔ ∃ suf, text = pre +:+ suf.
Proof.
  split.
  - intros H. eexists. by apply startswith_slice.
  - intros [suf ->]. apply startswith_append.
Qed.

Lemma join_empty_app (l1 l2 : list string) :
  join_empty (l1 ++ l2) = join_empty l1 +:+ join_empty l2.
Proof.
  induction l1 as [|s l1 IH]; simpl; [done|].
  by rewrite IH, append_assoc.
Qed.

End PyStrFacts.

(** ** [_extract_content] *)

Section ExtractContent.
Import PyStr PyStrFacts.

(** The loop only ever appends to [text_parts]. *)
Lemma extract_loop_acc (blocks : list block) (acc : list string) :
  fold_left extract_step blocks acc = acc ++ omap block_text blocks.
Proof.
  revert acc. induction blocks as [|b blocks IH]; intros acc; simpl.
  - by rewrite app_nil_r.
  - rewrite IH. destruct b as [s|d|]; simpl.
    + by rewrite <- app_assoc.
    + destruct (d !! "text"); simpl; [by rewrite <- app_assoc|done].
    + done.
Qed.

Lemma extract_content_list (blocks : list block) :
  _extract_content (CList blocks) = join_empty (omap block_text blocks).
Proof. unfold _extract_content. by rewrite extract_loop_acc. Qed.

Lemma extract_content_app (bs1 bs2 : list block) :
  _extract_content (CList (bs1 ++ bs2))
  = _extract_content (CList bs1) +:+ _extract_content (CList bs2).
Proof. by rewrite !extract_content_list, omap_app, join_empty_app. Qed.

End ExtractContent.

(** C7. [_extract_content] surfaces only text: a plain string is
    returned unchanged; for a list of blocks the result is the in-order
    concatenation of the texts of its blocks, where a bare string block
    contributes itself, a dict block with a ["text"] entry contributes
    that entry, and every other block (a dict without ["text"], any
    other object) contributes nothing, wherever it stands in the list. *)
Theorem extract_content_textual :
  (∀ s, _extract_content (CStr s) = s) ∧
  (∀ blocks,
     _extract_content (CList blocks) = PyStr.join_empty (omap block_text blocks)) ∧
  _extract_content (CList []) = "" ∧
  (∀ s blocks,
     _extract_content (CList (BStr s :: blocks))
     = s +:+ _extract_content (CList blocks)) ∧
  (∀ d blocks,
     _extract_content (CList (BDict d :: blocks))
     = match d !! "text" with
       | Some t => t +:+ _extract_content (CList blocks)
       | None => _extract_content (CList blocks)
       end) ∧
  (∀ blocks,
     _extract_content (CList (BOther :: blocks)) = _extract_content (CList blocks)) ∧
  (∀ bs1 bs2,
     _extract_content (CList (bs1 ++ bs2))
     = _extract_content (CList bs1) +:+ _extract_content (CList bs2)).
Proof.
  split_and!.
  - done.
  - apply extract_content_list.
  - done.
  - intros s blocks. by rewrite !extract_content_list.
  - intros d blocks. rewrite !extract_content_list. simpl.
    by destruct (d !! "text").
  - intros blocks. by rewrite !extract_content_list.
  - apply extract_content_app.
Qed.

(** ** The delta loop of [search_streaming] *)

Section DeltaLoop.
Import PyStr PyStrFacts.

Lemma stream_loop_app (last_emitted : string) (items1 items2 : list pyobj) :
  stream_loop last_emitted (items1 ++ items2)
  = let '(evts1, mid) := stream_loop last_emitted items1 in
    let '(evts2, final_text) := stream_loop mid items2 in
    (evts1 ++ evts2, final_text).
Proof.
  revert last_emitted.
  induction items1 as [|item items1 IH]; intros last_emitted; simpl.
  - by destruct (stream_loop last_emitted items2).
  - destruct (stream_step last_emitted item) as [last' evt].
    rewrite IH.
    destruct (stream_loop last' items1) as [evts1 mid].
    destruct (stream_loop mid items2) as [evts2 final_text].
    by rewrite app_assoc.
Qed.

Lemma stream_loop_snoc (last_emitted : string) (items : list pyobj) (item : pyobj) :
  stream_loop last_emitted (items ++ [item])
  = let '(evts, mid) := stream_loop last_emitted items in
    let '(final_text, evt) := stream_step mid item in
    (evts ++ from_option (λ e, [e]) [] evt, final_text).
Proof.
  rewrite stream_loop_app.
  destruct (stream_loop last_emitted items) as [evts mid]. simpl.
  destruct (stream_step mid item) as [final_text evt].
  by rewrite app_nil_r.
Qed.

(** The code's delta is the specification's. *)
Lemma compute_delta_spec (last_emitted text : string) :
  spec_delta last_emitted text (compute_delta last_emitted text).
Proof.
  unfold compute_delta.
  destruct (startswith text last_emitted) eqn:Hpre.
  - apply spec_delta_suffix. by apply startswith_slice.
  - apply spec_delta_reset. intros suf ->.
    by rewrite startswith_append in Hpre.
Qed.

(** The specification's delta is unique, so it is the code's. *)
Lemma spec_delta_unique (last_emitted text d1 d2 : string) :
  spec_delta last_emitted text d1 → spec_delta last_emitted text d2 → d1 = d2.
Proof.
  intros [s1 H1|H1] [s2 H2|H2]; try done.
  - rewrite H1 in H2. by apply (inj (String.app last_emitted)) in H2.
  - by destruct (H2 s1).
  - by destruct (H1 s2).
Qed.

(** The loop yields delta events only, none of them empty. *)
Lemma stream_loop_deltas (last_emitted : string) (items : list pyobj) :
  Forall (λ e, ∃ d, e = EDelta d ∧ d ≠ "") (stream_loop last_emitted items).1.
Proof.
  revert last_emitted.
  induction items as [|item items IH]; intros last_emitted; simpl; [done|].
  destruct (stream_step last_emitted item) as [last' evt] eqn:Hstep.
  specialize (IH last'). destruct (stream_loop last' items) as [evts final_text].
  simpl in *. apply Forall_app. split; [|done].
  unfold stream_step in Hstep.
  destruct (chunk_text item) as [text|]; [|by simplify_eq].
  destruct (truthy (compute_delta last_emitted text)) eqn:Hd; simplify_eq; [|done].
  repeat constructor. eexists. split; [done|]. by apply truthy_true.
Qed.

Lemma delta_texts_app (evts1 evts2 : list event) :
  delta_texts (evts1 ++ evts2) = delta_texts evts1 ++ delta_texts evts2.
Proof. apply omap_app. Qed.

(** Whatever the chunks, the text emitted so far followed by the deltas
    still to come ends with the final text. *)
Lemma stream_loop_suffix (last_emitted : string) (items : list pyobj) :
  ∃ pre,
    last_emitted +:+ join_empty (delta_texts (stream_loop last_emitted items).1)
    = pre +:+ (stream_loop last_emitted items).2.
Proof.
  revert last_emitted.
  induction items as [|item items IH]; intros last_emitted; simpl.
  - exists "". by rewrite append_nil_r.
  - unfold stream_step.
    destruct (chunk_text item) as [text|]; simpl.
    2:{ destruct (IH last_emitted) as [pre Hpre].
        destruct (stream_loop last_emitted items); simpl in *. eauto. }
    destruct (truthy (compute_delta last_emitted text)) eqn:Hd; simpl.
    2:{ destruct (IH last_emitted) as [pre Hpre].
        destruct (stream_loop last_emitted items); simpl in *. eauto. }
    destruct (IH text) as [pre Hpre].
    destruct (stream_loop text items) as [evts final_text]; simpl in *.
    unfold compute_delta in *.
    destruct (startswith text last_emitted) eqn:Hsw.
    + exists pre. rewrite <- Hpre, <- append_assoc.
      by rewrite <- (startswith_slice _ _ Hsw).
    + exists (last_emitted +:+ pre). by rewrite append_assoc, Hpre.
Qed.

(** Without a reset, the text emitted so far followed by the deltas
    still to come is the final text. *)
Lemma stream_loop_cumulative (last_emitted : string) (items : list pyobj) :
  cumulative (last_emitted :: omap chunk_text items) →
  last_emitted +:+ join_empty (delta_texts (stream_loop last_emitted items).1)
  = (stream_loop last_emitted items).2.
Proof.
  revert last_emitted.
  induction items as [|item items IH]; intros last_emitted Hcum; simpl.
  - by rewrite append_nil_r.
  - unfold stream_step. simpl in Hcum.
    destruct (chunk_text item) as [text|]; simpl.
    2:{ specialize (IH last_emitted Hcum).
        by destruct (stream_loop last_emitted items). }
    destruct Hcum as [[suf ->] Hcum].
    unfold compute_delta.
    rewrite startswith_append, slice_from_append.
    destruct (truthy suf) eqn:Hd; simpl.
    + specialize (IH _ Hcum).
      destruct (stream_loop (last_emitted +:+ suf) items); simpl in *.
      by rewrite <- IH, append_assoc.
    + apply truthy_false in Hd as ->. rewrite append_nil_r in Hcum.
      specialize (IH _ Hcum).
      by destruct (stream_loop last_emitted items).
Qed.

Lemma cumulative_from_empty (texts : list string) :
  cumulative texts → cumulative ("" :: texts).
Proof. destruct texts as [|a texts]; [done|]. intros H. split; [by exists a|done]. Qed.

End DeltaLoop.

(** ** Runs of [search_streaming] and of [event_generator] *)

Section Runs.
Import PyStr PyStrFacts.

(** The events of the loop are exactly its delta texts, as deltas. *)
Lemma stream_loop_events (last_emitted : string) (items : list pyobj) :
  (stream_loop last_emitted items).1
  = EDelta <$> delta_texts (stream_loop last_emitted items).1.
Proof.
  pose proof (stream_loop_deltas last_emitted items) as H.
  induction H as [|e evts (d & -> & _) _ IH]; [done|].
  change (delta_texts (EDelta d :: evts)) with (d :: delta_texts evts).
  rewrite fmap_cons. by f_equal.
Qed.

Lemma stream_loop_all_deltas (last_emitted : string) (items : list pyobj) :
  ∃ ds, (stream_loop last_emitted items).1 = EDelta <$> ds.
Proof. eexists. apply stream_loop_events. Qed.

Lemma delta_texts_deltas (ds : list string) : delta_texts (EDelta <$> ds) = ds.
Proof.
  induction ds as [|d ds IH]; [done|].
  rewrite fmap_cons.
  change (delta_texts (EDelta d :: (EDelta <$> ds)))
    with (d :: delta_texts (EDelta <$> ds)).
  by f_equal.
Qed.

(** The four ways a run can go. *)
Lemma search_streaming_cases (ag : agent) (fresh query : string)
    (tid mid : option string) :
  let thread_id := default fresh tid in
  let cfg := Config thread_id mid in
  let run := search_streaming ag fresh query tid mid in
  (∃ exc, open_stream ag cfg query = inl exc ∧
          run = Trace [EMeta thread_id mid] (Raised exc)) ∨
  (∃ items exc,
     open_stream ag cfg query = inr (items, IterRaises exc) ∧
     run = Trace (EMeta thread_id mid :: (stream_loop "" items).1) (Raised exc)) ∨
  (∃ items exc,
     open_stream ag cfg query = inr (items, StopIteration) ∧
     agent_get_state ag cfg = inl exc ∧
     run = Trace (EMeta thread_id mid :: (stream_loop "" items).1) (Raised exc)) ∨
  (∃ items configurable,
     open_stream ag cfg query = inr (items, StopIteration) ∧
     agent_get_state ag cfg = inr configurable ∧
     run = Trace (EMeta thread_id mid :: (stream_loop "" items).1
                  ++ [EFinal (stream_loop "" items).2 thread_id
                             (default ∅ configurable !! "checkpoint_id")])
                 Returned).
Proof.
  intros thread_id cfg run. subst run. unfold search_streaming.
  fold thread_id. fold cfg.
  destruct (open_stream ag cfg query) as [exc|[items fin]]; [left; by eexists|].
  right. destruct (stream_loop "" items) as [deltas last_emitted] eqn:Hloop.
  destruct fin as [|exc]; [|left; exists items, exc; by rewrite Hloop].
  right. destruct (agent_get_state ag cfg) as [exc|configurable].
  - left. exists items, exc. by rewrite Hloop.
  - right. exists items, configurable. by rewrite Hloop.
Qed.

Lemma frame_loop_deltas (st : option string * option string) (ds : list string) :
  frame_loop st (EDelta <$> ds) = (FText <$> ds, st).
Proof.
  induction ds as [|d ds IH]; [done|].
  rewrite !fmap_cons. simpl. by rewrite IH.
Qed.

Lemma frame_loop_app (st : option string * option string) (evts1 evts2 : list event) :
  frame_loop st (evts1 ++ evts2)
  = let '(frs1, st1) := frame_loop st evts1 in
    let '(frs2, st2) := frame_loop st1 evts2 in
    (frs1 ++ frs2, st2).
Proof.
  revert st. induction evts1 as [|e evts1 IH]; intros st; simpl.
  - by destruct (frame_loop st evts2).
  - destruct (frame_step st e) as [st' fr]. rewrite IH.
    destruct (frame_loop st' evts1) as [frs1 st1].
    destruct (frame_loop st1 evts2) as [frs2 st2].
    by rewrite app_assoc.
Qed.

Lemma last_meta_deltas (meta : event) (ds : list string) :
  last (meta :: (EDelta <$> ds)) = Some meta ∨
  ∃ d, last (meta :: (EDelta <$> ds)) = Some (EDelta d).
Proof.
  destruct ds as [|d ds _] using rev_ind; [by left|right].
  rewrite fmap_app. simpl. rewrite app_comm_cons, last_snoc. eauto.
Qed.

Lemma well_terminated_final (tid : string) (mid ck : option string)
    (ds : list string) (response : string) :
  well_terminated
    (kind_of <$> (EMeta tid mid :: (EDelta <$> ds) ++ [EFinal response tid ck]))
  = true.
Proof.
  simpl. rewrite fmap_app, reverse_app. simpl.
  apply forallb_forall. intros k Hk.
  apply list_elem_of_In in Hk. rewrite elem_of_reverse in Hk.
  apply list_elem_of_fmap in Hk as (e & -> & He).
  by apply list_elem_of_fmap in He as (d & -> & _).
Qed.

End Runs.

(** ** Delta streaming: the claims *)

Lemma search_streaming_delta_texts (ag : agent) (fresh query : string)
    (tid mid : option string) :
  delta_texts (events (search_streaming ag fresh query tid mid))
  = delta_texts
      (stream_loop "" (streamed_items ag (Config (default fresh tid) mid) query)).1.
Proof.
  unfold streamed_items.
  destruct (search_streaming_cases ag fresh query tid mid)
    as [(exc & -> & ->)|[(items & exc & -> & ->)|[(items & exc & -> & _ & ->)
       |(items & c & -> & _ & ->)]]]; simpl; try done.
  change (delta_texts (EMeta ?t ?m :: ?l)) with (delta_texts l).
  rewrite delta_texts_app. simpl. by rewrite app_nil_r.
Qed.

(** C2. The delta computation keeps [last_emitted], initially empty,
    and every run of [search_streaming] emits the deltas of that loop.
    When the loop has consumed [items] and the next item carries the
    assistant text [text]: the delta is the remaining suffix if
    [last_emitted] is a prefix of [text], and the entire [text]
    otherwise; a non-empty delta is yielded as one more delta event and
    [last_emitted] becomes [text]; an empty delta yields no event and
    leaves the state as it was. *)
Theorem delta_algorithm (items : list pyobj) (item : pyobj) (text : string) :
  chunk_text item = Some text →
  (stream_loop "" []).2 = "" ∧
  (∀ ag fresh query tid mid,
     delta_texts (events (search_streaming ag fresh query tid mid))
     = delta_texts
         (stream_loop "" (streamed_items ag (Config (default fresh tid) mid) query)).1) ∧
  (∃ delta, spec_delta (stream_loop "" items).2 text delta) ∧
  (∀ delta,
     spec_delta (stream_loop "" items).2 text delta →
     stream_loop "" (items ++ [item])
     = if PyStr.truthy delta
       then ((stream_loop "" items).1 ++ [EDelta delta], text)
       else stream_loop "" items).
Proof.
  intros Htext. split_and!.
  - done.
  - apply search_streaming_delta_texts.
  - eexists. apply compute_delta_spec.
  - intros delta Hdelta. rewrite stream_loop_snoc.
    destruct (stream_loop "" items) as [evts last_emitted]. simpl in *.
    unfold stream_step. rewrite Htext.
    rewrite (spec_delta_unique _ _ _ _ (compute_delta_spec last_emitted text) Hdelta).
    destruct (PyStr.truthy delta); simpl; [done|by rewrite app_nil_r].
Qed.

(** A run in which the second chunk extends the first: the suffix is
    emitted. *)
Lemma delta_algorithm_witness :
  chunk_text (Sample.chunk (Sample.ai "Hello")) = Some "Hello" ∧
  stream_loop "" ([Sample.chunk (Sample.ai "He")] ++ [Sample.chunk (Sample.ai "Hello")])
  = ([EDelta "He"; EDelta "llo"], "Hello").
Proof.
  split; [reflexivity|].
  destruct (delta_algorithm [Sample.chunk (Sample.ai "He")]
              (Sample.chunk (Sample.ai "Hello")) "Hello" eq_refl)
    as (_ & _ & _ & Hstep).
  apply (Hstep "llo"). by apply spec_delta_suffix.
Defined.

(** Counterexample to C1 as stated: after a reset the deltas
    concatenate to more than the final response. *)
Lemma reset_breaks_reconstruction :
  PyStr.join_empty
    (delta_texts
       (events (search_streaming (Sample.engine Sample.resetting StopIteration)
                                 "u1" "q" None None))) = "abcd" ∧
  final_response
    (events (search_streaming (Sample.engine Sample.resetting StopIteration)
                              "u1" "q" None None)) = Some "cd" ∧
  Some "abcd" ≠ Some "cd".
Proof. split_and!; [reflexivity|reflexivity|discriminate]. Qed.

Lemma final_response_inv (ag : agent) (fresh query : string)
    (tid mid : option string) (response : string) :
  final_response (events (search_streaming ag fresh query tid mid)) = Some response →
  response
  = (stream_loop "" (streamed_items ag (Config (default fresh tid) mid) query)).2.
Proof.
  unfold streamed_items, final_response.
  destruct (search_streaming_cases ag fresh query tid mid)
    as [(exc & -> & ->)|[(items & exc & -> & ->)|[(items & exc & -> & _ & ->)
       |(items & c & -> & _ & ->)]]]; simpl events.
  - done.
  - rewrite stream_loop_events.
    by destruct (last_meta_deltas (EMeta (default fresh tid) mid)
                   (delta_texts (stream_loop "" items).1)) as [->|[d ->]].
  - rewrite stream_loop_events.
    by destruct (last_meta_deltas (EMeta (default fresh tid) mid)
                   (delta_texts (stream_loop "" items).1)) as [->|[d ->]].
  - rewrite app_comm_cons, last_snoc. by intros [= <-].
Qed.

(** C1 (amended). For every run of [search_streaming] that reaches its
    final event, the response of that event is a suffix of the
    concatenation of the contents of the delta events; the two are
    equal whenever the assistant texts the engine yielded were
    cumulative, each having its predecessor as a prefix. *)
Theorem streaming_reconstruction (ag : agent) (fresh query : string)
    (tid mid : option string) (response : string) :
  final_response (events (search_streaming ag fresh query tid mid)) = Some response →
  (∃ pre,
     PyStr.join_empty (delta_texts (events (search_streaming ag fresh query tid mid)))
     = pre +:+ response) ∧
  (cumulative
     (omap chunk_text (streamed_items ag (Config (default fresh tid) mid) query)) →
   PyStr.join_empty (delta_texts (events (search_streaming ag fresh query tid mid)))
   = response).
Proof.
  intros Hfinal. apply final_response_inv in Hfinal as ->.
  rewrite search_streaming_delta_texts. split.
  - apply (stream_loop_suffix "").
  - intros Hcum. by apply (stream_loop_cumulative ""), cumulative_from_empty.
Qed.

(** A cumulative run: the deltas ["He"] and ["llo"] rebuild the final
    response ["Hello"]. *)
Lemma streaming_reconstruction_witness :
  final_response
    (events (search_streaming (Sample.engine Sample.growing StopIteration)
                              "u1" "q" None None)) = Some "Hello" ∧
  cumulative
    (omap chunk_text
       (streamed_items (Sample.engine Sample.growing StopIteration)
                       (Config (default "u1" None) None) "q")) ∧
  PyStr.join_empty
    (delta_texts
       (events (search_streaming (Sample.engine Sample.growing StopIteration)
                                 "u1" "q" None None))) = "Hello".
Proof.
  assert (Hcum : cumulative
            (omap chunk_text
               (streamed_items (Sample.engine Sample.growing StopIteration)
                               (Config (default "u1" None) None) "q"))).
  { vm_compute. split_and!; [by exists "llo"|by exists ""|done]. }
  split_and!; [reflexivity|exact Hcum|].
  exact (proj2 (streaming_reconstruction
                  (Sample.engine Sample.growing StopIteration)
                  "u1" "q" None None "Hello" eq_refl) Hcum).
Defined.

(** ** Shape of a stream *)

(** Counterexample to C3 as stated: when the engine's iterator raises,
    the events of [search_streaming] end with a delta, not with a
    terminal event, and the exception leaves the generator. *)
Lemma failure_leaves_generator :
  search_streaming (Sample.engine Sample.resetting (IterRaises "boom"))
                   "u1" "q" (Some "t1") None
  = Trace [EMeta "t1" None; EDelta "ab"; EDelta "cd"] (Raised "boom") ∧
  well_terminated
    (kind_of <$>
       events (search_streaming (Sample.engine Sample.resetting (IterRaises "boom"))
                                "u1" "q" (Some "t1") None)) = false.
Proof. split; reflexivity. Qed.

(** C3 (amended). Every run of [search_streaming] yields exactly one
    meta event first and then only delta events, closed by exactly one
    final event when the generator returns. The generator returns
    exactly when the engine's iterator and the state lookup both
    succeed; otherwise no terminal event is yielded and the failure
    leaves [search_streaming]. [event_generator] of [api_chat] turns
    either outcome into frames: the deltas as text frames, followed by
    the finish frame (and the annotation frame for a non-empty thread
    id) after a final event, or by a single error frame carrying the
    failure, which does not reach the HTTP caller. *)
Theorem stream_shape (ag : agent) (fresh query : string) (tid mid : option string) :
  ∃ deltas : list string,
    match finish (search_streaming ag fresh query tid mid) with
    | Returned =>
        ∃ response checkpoint_id,
          events (search_streaming ag fresh query tid mid)
          = EMeta (default fresh tid) mid :: (EDelta <$> deltas)
            ++ [EFinal response (default fresh tid) checkpoint_id] ∧
          well_terminated
            (kind_of <$> events (search_streaming ag fresh query tid mid)) = true ∧
          (∃ items configurable,
             open_stream ag (Config (default fresh tid) mid) query
             = inr (items, StopIteration) ∧
             agent_get_state ag (Config (default fresh tid) mid) = inr configurable) ∧
          event_generator (search_streaming ag fresh query tid mid)
          = (FText <$> deltas) ++ [FFinish]
            ++ (if PyStr.truthy (default fresh tid)
                then [FAnnotation (default fresh tid) checkpoint_id] else [])
    | Raised exc =>
        events (search_streaming ag fresh query tid mid)
        = EMeta (default fresh tid) mid :: (EDelta <$> deltas) ∧
        (open_stream ag (Config (default fresh tid) mid) query = inl exc ∨
         (∃ items, open_stream ag (Config (default fresh tid) mid) query
                   = inr (items, IterRaises exc)) ∨
         agent_get_state ag (Config (default fresh tid) mid) = inl exc) ∧
        event_generator (search_streaming ag fresh query tid mid)
        = (FText <$> deltas) ++ [FError exc]
    end.
Proof.
  destruct (search_streaming_cases ag fresh query tid mid)
    as [(exc & Ho & ->)|[(items & exc & Ho & ->)|[(items & exc & Ho & Hs & ->)
       |(items & c & Ho & Hs & ->)]]]; simpl finish.
  - exists []. split_and!; [done|by left|done].
  - destruct (stream_loop_all_deltas "" items) as [ds Hev]. rewrite Hev.
    exists ds. split_and!; [done|right; left; eauto|].
    unfold event_generator. simpl. by rewrite frame_loop_deltas.
  - destruct (stream_loop_all_deltas "" items) as [ds Hev]. rewrite Hev.
    exists ds. split_and!; [done|by right; right|].
    unfold event_generator. simpl. by rewrite frame_loop_deltas.
  - destruct (stream_loop_all_deltas "" items) as [ds Hev]. rewrite Hev.
    exists ds. eexists _, _. split_and!; [done| |eauto|].
    + apply well_terminated_final.
    + unfold event_generator. simpl.
      rewrite frame_loop_app, frame_loop_deltas. simpl.
      by rewrite app_nil_r.
Qed.

Lemma no_final_among_deltas (meta : event) (ds : list string) :
  kind_of meta ≠ KFinal →
  Forall (λ e, kind_of e ≠ KFinal) (meta :: (EDelta <$> ds)).
Proof.
  intros Hmeta. constructor; [done|].
  apply Forall_fmap, Forall_true. done.
Qed.

(** C8. The meta event, always the first event of a run, carries the
    message id the caller supplied ([None] when there was none). No
    later event is a meta event; delta events carry no id; a final
    event, which is then the last event, carries the checkpoint id read
    from the engine's state after the stream ended. Whenever the
    engine's stream ends normally and the state lookup succeeds, the
    run does end with that final event, carrying the last emitted text,
    the thread id and the resolved checkpoint id; in every other case
    the generator raises and no event of the run is a final event. *)
Theorem meta_carries_caller_id (ag : agent) (fresh query : string)
    (tid mid : option string) :
  head (events (search_streaming ag fresh query tid mid))
  = Some (EMeta (default fresh tid) mid) ∧
  Forall
    (λ e, match e with
          | EMeta _ _ => False
          | EDelta _ => True
          | EFinal _ thread_id checkpoint_id =>
              thread_id = default fresh tid ∧
              last (events (search_streaming ag fresh query tid mid)) = Some e ∧
              ∃ configurable,
                agent_get_state ag (Config (default fresh tid) mid) = inr configurable ∧
                checkpoint_id = default ∅ configurable !! "checkpoint_id"
          end)
    (tail (events (search_streaming ag fresh query tid mid))) ∧
  match open_stream ag (Config (default fresh tid) mid) query with
  | inr (items, StopIteration) =>
      match agent_get_state ag (Config (default fresh tid) mid) with
      | inr configurable =>
          search_streaming ag fresh query tid mid
          = Trace (EMeta (default fresh tid) mid :: (stream_loop "" items).1
                   ++ [EFinal (stream_loop "" items).2 (default fresh tid)
                              (default ∅ configurable !! "checkpoint_id")])
                  Returned
      | inl exc =>
          finish (search_streaming ag fresh query tid mid) = Raised exc ∧
          Forall (λ e, kind_of e ≠ KFinal)
                 (events (search_streaming ag fresh query tid mid))
      end
  | inr (_, IterRaises exc) =>
      finish (search_streaming ag fresh query tid mid) = Raised exc ∧
      Forall (λ e, kind_of e ≠ KFinal)
             (events (search_streaming ag fresh query tid mid))
  | inl exc =>
      finish (search_streaming ag fresh query tid mid) = Raised exc ∧
      Forall (λ e, kind_of e ≠ KFinal)
             (events (search_streaming ag fresh query tid mid))
  end.
Proof.
  destruct (search_streaming_cases ag fresh query tid mid)
    as [(exc & Ho & Hrun)|[(items & exc & Ho & Hrun)|[(items & exc & Ho & Hs & Hrun)
       |(items & c & Ho & Hs & Hrun)]]]; rewrite Ho, ?Hs, Hrun; simpl;
    (split; [done|]).
  - split; [done|]. split; [done|]. by repeat constructor.
  - split.
    + rewrite stream_loop_events. apply Forall_fmap, Forall_true. done.
    + split; [done|]. rewrite stream_loop_events.
      by apply no_final_among_deltas.
  - split.
    + rewrite stream_loop_events. apply Forall_fmap, Forall_true. done.
    + split; [done|]. rewrite stream_loop_events.
      by apply no_final_among_deltas.
  - split; [|done]. apply Forall_app. split.
    + rewrite stream_loop_events. apply Forall_fmap, Forall_true. done.
    + apply Forall_singleton. split_and!; [done| |eauto].
      by rewrite app_comm_cons, last_snoc.
Qed.

(** A time-travel run: the meta event repeats the caller's ["ck-1"],
    the final event carries the checkpoint ["ck-2"] the engine settled
    on. *)
Lemma meta_carries_caller_id_witness :
  search_streaming (Sample.engine Sample.growing StopIteration)
                   "u1" "q" (Some "t1") (Some "ck-1")
  = Trace [EMeta "t1" (Some "ck-1"); EDelta "He"; EDelta "llo";
           EFinal "Hello" "t1" (Some "ck-2")] Returned.
Proof.
  exact (proj2 (proj2 (meta_carries_caller_id
                         (Sample.engine Sample.growing StopIteration)
                         "u1" "q" (Some "t1") (Some "ck-1")))).
Defined.

(** ** The stores *)

Section Stores.

Lemma get_tuple_None (tid : string) (db : database) :
  get_tuple tid db = None ↔ checkpoints_of tid db = [].
Proof. apply last_None. Qed.

Lemma metadata_first_None (tid : string) (db : database) :
  metadata_first tid db = None ↔ ∀ m, m ∈ thread_metadata db → thread_id m ≠ tid.
Proof.
  unfold metadata_first. rewrite head_None. split.
  - intros Hnil m Hm Heq.
    by apply (filter_nil_not_elem_of _ _ m Hnil Heq).
  - intros Hall. destruct (filter _ _) as [|m l] eqn:Hf; [done|].
    assert (Hm : m ∈ filter (λ m, thread_id m = tid) (thread_metadata db))
      by (rewrite Hf; left).
    apply list_elem_of_filter in Hm as [Heq Hm]. by destruct (Hall m Hm).
Qed.

(** Filtering a thread out leaves none of its rows and all the
    others. *)
Lemma filter_out_same {A} (key : A → string) (tid : string) (l : list A) :
  filter (λ x, key x = tid) (filter (λ x, key x ≠ tid) l) = [].
Proof.
  induction l as [|x l IH]; [done|].
  rewrite (filter_cons (λ x, key x ≠ tid)).
  destruct (decide (key x ≠ tid)) as [Hne|_]; [|done].
  by rewrite filter_cons_False.
Qed.

Lemma filter_out_other {A} (key : A → string) (tid t : string) (l : list A) :
  t ≠ tid →
  filter (λ x, key x = t) (filter (λ x, key x ≠ tid) l) = filter (λ x, key x = t) l.
Proof.
  intros Hne. induction l as [|x l IH]; [done|].
  rewrite (filter_cons (λ x, key x ≠ tid)).
  destruct (decide (key x ≠ tid)) as [Hx|Hx].
  - rewrite !(filter_cons (λ x, key x = t)). by rewrite IH.
  - rewrite IH. rewrite (filter_cons_False (λ x, key x = t)); [done|].
    intros Heq. apply Hx. congruence.
Qed.

Lemma filter_out_absent {A} (key : A → string) (tid : string) (l : list A) :
  filter (λ x, key x = tid) l = [] → filter (λ x, key x ≠ tid) l = l.
Proof.
  induction l as [|x l IH]; [done|].
  rewrite !filter_cons.
  destruct (decide (key x = tid)) as [Heq|Hne]; [done|].
  intros Hnil. destruct (decide (key x ≠ tid)); [|done]. by rewrite IH.
Qed.

Lemma retitle_thread_id clk tid new_title m :
  thread_id (retitle clk tid new_title m) = thread_id m.
Proof. unfold retitle. by case_bool_decide. Qed.

Lemma retitle_created_at clk tid new_title m :
  created_at (retitle clk tid new_title m) = created_at m.
Proof. unfold retitle. by case_bool_decide. Qed.

Lemma retitle_other clk tid new_title m :
  thread_id m ≠ tid → retitle clk tid new_title m = m.
Proof. unfold retitle. by case_bool_decide. Qed.

Lemma filter_retitle clk tid new_title (t : string) (rows : list ThreadMetadata) :
  filter (λ m, thread_id m = t) (retitle clk tid new_title <$> rows)
  = retitle clk tid new_title <$> filter (λ m, thread_id m = t) rows.
Proof.
  induction rows as [|m rows IH]; [done|].
  rewrite fmap_cons, !filter_cons, retitle_thread_id.
  destruct (decide (thread_id m = t)); by rewrite IH.
Qed.

Lemma upsert_title_present clk tid new_title rows old :
  head (filter (λ m, thread_id m = tid) rows) = Some old →
  upsert_title clk tid new_title rows = retitle clk tid new_title <$> rows.
Proof. unfold upsert_title. by intros ->. Qed.

Lemma upsert_title_absent clk tid new_title rows :
  head (filter (λ m, thread_id m = tid) rows) = None →
  upsert_title clk tid new_title rows
  = rows ++ [Build_ThreadMetadata tid (CStr new_title) (clk 0) (clk 1)].
Proof. unfold upsert_title. by intros ->. Qed.

(** The record of the renamed thread after the upsert. *)
Lemma upsert_title_first clk tid new_title rows :
  head (filter (λ m, thread_id m = tid) (upsert_title clk tid new_title rows))
  = Some match head (filter (λ m, thread_id m = tid) rows) with
         | Some old =>
             Build_ThreadMetadata (thread_id old) (CStr new_title)
                                  (created_at old) (clk 0)
         | None => Build_ThreadMetadata tid (CStr new_title) (clk 0) (clk 1)
         end.
Proof.
  destruct (head (filter (λ m, thread_id m = tid) rows)) as [old|] eqn:Hhead.
  - rewrite (upsert_title_present _ _ _ _ _ Hhead), filter_retitle.
    apply head_Some in Hhead as [rest Hrows]. rewrite Hrows. simpl.
    assert (Hold : old ∈ filter (λ m, thread_id m = tid) rows)
      by (rewrite Hrows; left).
    apply list_elem_of_filter in Hold as [Hold _].
    unfold retitle. by rewrite bool_decide_eq_true_2.
  - rewrite (upsert_title_absent _ _ _ _ Hhead).
    apply head_None in Hhead. rewrite filter_app, Hhead. simpl.
    by rewrite filter_cons_True.
Qed.

(** The records of the other threads are untouched. *)
Lemma upsert_title_other clk tid new_title rows (t : string) :
  t ≠ tid →
  filter (λ m, thread_id m = t) (upsert_title clk tid new_title rows)
  = filter (λ m, thread_id m = t) rows.
Proof.
  intros Hne.
  destruct (head (filter (λ m, thread_id m = tid) rows)) as [old|] eqn:Hhead.
  - rewrite (upsert_title_present _ _ _ _ _ Hhead), filter_retitle.
    induction (filter (λ m, thread_id m = t) rows) as [|m l IH] eqn:Hf; [done|].
    clear IH. rewrite <- Hf.
    apply list_eq_Forall2, Forall2_fmap_l, Forall_Forall2_diag, Forall_forall.
    intros x Hx. apply list_elem_of_filter in Hx as [Hx _].
    apply retitle_other. congruence.
  - rewrite (upsert_title_absent _ _ _ _ Hhead), filter_app.
    rewrite filter_cons_False, app_nil_r; [done|]. simpl. congruence.
Qed.

End Stores.

(** ** [rename_thread]: the claims *)

(** C6. [rename_thread] returns false, changing nothing, when the
    thread has no checkpoints. Otherwise, when the session does not
    fail, it returns true, leaves the checkpoint log alone and upserts
    the metadata: an absent record is inserted with the new title and
    fresh [created_at] and [updated_at]; a present record keeps its
    [created_at] and gets the new title and a fresh [updated_at]; the
    records of other threads stay as they were. Renaming again with the
    same title succeeds and leaves the stored title (and [created_at])
    as the first rename left them. *)
Theorem rename_thread_upsert (clk : clock) (session_fails : bool)
    (tid new_title : string) (db : database) :
  match checkpoints_of tid db with
  | [] => rename_thread clk session_fails tid new_title db = (false, db)
  | _ :: _ =>
      ∃ db' stored,
        rename_thread clk false tid new_title db = (true, db') ∧
        checkpoints db' = checkpoints db ∧ writes db' = writes db ∧
        metadata_first tid db' = Some stored ∧
        stored = match metadata_first tid db with
                 | Some old =>
                     Build_ThreadMetadata (thread_id old) (CStr new_title)
                                          (created_at old) (clk 0)
                 | None => Build_ThreadMetadata tid (CStr new_title) (clk 0) (clk 1)
                 end ∧
        (∀ t, t ≠ tid → metadata_first t db' = metadata_first t db) ∧
        (∀ clk2, ∃ db'',
           rename_thread clk2 false tid new_title db' = (true, db'') ∧
           metadata_first tid db''
           = Some (Build_ThreadMetadata (thread_id stored) (CStr new_title)
                                        (created_at stored) (clk2 0)) ∧
           title <$> metadata_first tid db'' = title <$> metadata_first tid db')
  end.
Proof.
  unfold rename_thread, get_tuple.
  destruct (checkpoints_of tid db) as [|r rows] eqn:Hck; [done|].
  destruct (last (r :: rows)) as [state_tuple|] eqn:Hlast;
    [|by apply last_None in Hlast].
  eexists _, _. split_and!; [done|done|done| |done| |].
  - apply upsert_title_first.
  - intros t Hne. unfold metadata_first. simpl.
    by rewrite upsert_title_other.
  - intros clk2. unfold checkpoints_of. simpl. fold (checkpoints_of tid db).
    rewrite Hck, Hlast. eexists. split_and!; [done| |].
    + unfold metadata_first. simpl.
      rewrite upsert_title_first, upsert_title_first. done.
    + unfold metadata_first. simpl.
      rewrite upsert_title_first, upsert_title_first.
      by destruct (head (filter _ (thread_metadata db))).
Qed.

(** C9. When [rename_thread] updates an existing record, the record
    keeps its [thread_id] and [created_at]; only [title] and
    [updated_at] change. The table keeps its length, every row keeps
    its [thread_id] and [created_at], and the rows of other threads are
    unchanged. *)
Theorem rename_preserves_identity (clk : clock) (tid new_title : string)
    (db : database) (old : ThreadMetadata) :
  checkpoints_of tid db ≠ [] →
  metadata_first tid db = Some old →
  ∃ db' new,
    rename_thread clk false tid new_title db = (true, db') ∧
    metadata_first tid db' = Some new ∧
    thread_id new = thread_id old ∧ created_at new = created_at old ∧
    title new = CStr new_title ∧ updated_at new = clk 0 ∧
    length (thread_metadata db') = length (thread_metadata db) ∧
    (∀ i m, thread_metadata db !! i = Some m →
            ∃ m', thread_metadata db' !! i = Some m' ∧
                  thread_id m' = thread_id m ∧ created_at m' = created_at m ∧
                  (thread_id m ≠ tid → m' = m)).
Proof.
  intros Hck Hold. unfold rename_thread.
  destruct (get_tuple tid db) eqn:Htuple; [|by apply get_tuple_None in Htuple].
  eexists _, _. split_and!; [done| | | | | | |].
  - unfold metadata_first. simpl. rewrite upsert_title_first.
    unfold metadata_first in Hold. by rewrite Hold.
  - done.
  - done.
  - done.
  - done.
  - simpl. rewrite (upsert_title_present _ _ _ _ _ Hold). apply length_fmap.
  - intros i m Hi. simpl. rewrite (upsert_title_present _ _ _ _ _ Hold).
    rewrite list_lookup_fmap, Hi. simpl. eexists. split_and!; [done| | |].
    + apply retitle_thread_id.
    + apply retitle_created_at.
    + apply retitle_other.
Qed.

(** Renaming thread ["t2"] of the sample store keeps its id and
    [created_at]. *)
Lemma rename_preserves_identity_witness :
  checkpoints_of "t2" Sample.db ≠ [] ∧
  metadata_first "t2" Sample.db
  = Some (Build_ThreadMetadata "t2" (CStr "Old title") 10 20) ∧
  ∃ db' new,
    rename_thread Sample.clk false "t2" "New title" Sample.db = (true, db') ∧
    metadata_first "t2" db' = Some new ∧
    thread_id new = "t2" ∧ created_at new = 10%Z ∧
    title new = CStr "New title" ∧ updated_at new = Sample.clk 0.
Proof.
  assert (Hck : checkpoints_of "t2" Sample.db ≠ []) by (vm_compute; discriminate).
  split_and!; [exact Hck|reflexivity|].
  destruct (rename_preserves_identity Sample.clk "t2" "New title" Sample.db
              (Build_ThreadMetadata "t2" (CStr "Old title") 10 20) Hck eq_refl)
    as (db' & new & H1 & H2 & H3 & H4 & H5 & H6 & _).
  exists db', new. split_and!; done.
Defined.

(** ** [get_thread_list] *)

Section ThreadList.

(** The ids the scan collects: the non-empty ids of the rows. *)
Lemma scan_acc (rows : list checkpoint_row) (acc : gset string) (tid : string) :
  tid ∈ fold_left
          (λ (thread_ids : gset string) (r : checkpoint_row),
             if PyStr.truthy (ck_thread_id r) then thread_ids ∪ {[ck_thread_id r]}
             else thread_ids) rows acc
  ↔ tid ∈ acc ∨ (tid ≠ "" ∧ ∃ r, r ∈ rows ∧ ck_thread_id r = tid).
Proof.
  revert acc. induction rows as [|r rows IH]; intros acc; simpl.
  - split; [by left|]. intros [?|(_ & r & Hr & _)]; [done|]. by apply elem_of_nil in Hr.
  - rewrite IH. destruct (PyStr.truthy (ck_thread_id r)) eqn:Htr.
    + apply PyStrFacts.truthy_true in Htr. rewrite elem_of_union, elem_of_singleton.
      split.
      * intros [[?| ->]|(Hne & r' & Hr' & Heq)]; [by left| |].
        -- right. split; [done|]. exists r. split; [left|done].
        -- right. split; [done|]. exists r'. split; [by right|done].
      * intros [?|(Hne & r' & Hr' & Heq)]; [by left; left|].
        apply elem_of_cons in Hr' as [-> |Hr']; [left; by right|].
        right. eauto.
    + apply PyStrFacts.truthy_false in Htr. split.
      * intros [?|(Hne & r' & Hr' & Heq)]; [by left|].
        right. split; [done|]. exists r'. split; [by right|done].
      * intros [?|(Hne & r' & Hr' & Heq)]; [by left|].
        apply elem_of_cons in Hr' as [-> |Hr']; [congruence|].
        right. eauto.
Qed.

Lemma elem_of_scan_thread_ids (db : database) (tid : string) :
  tid ∈ scan_thread_ids db ↔ tid ≠ "" ∧ checkpoints_of tid db ≠ [].
Proof.
  unfold scan_thread_ids. rewrite scan_acc. unfold checkpoints_of. split.
  - intros [H|(Hne & r & Hr & Heq)]; [by apply not_elem_of_empty in H|].
    split; [done|]. intros Hnil.
    by apply (filter_nil_not_elem_of _ _ r Hnil Heq).
  - intros [Hne Hck]. right. split; [done|].
    destruct (filter _ _) as [|r l] eqn:Hf; [done|].
    assert (Hr : r ∈ filter (λ r, ck_thread_id r = tid) (checkpoints db))
      by (rewrite Hf; left).
    apply list_elem_of_filter in Hr as [Heq Hr]. eauto.
Qed.

(** The dict comprehension keeps, for each key, the last record with
    that key. *)
Lemma metadata_fold_lookup (rows : list ThreadMetadata)
    (acc : gmap string ThreadMetadata) (tid : string) :
  fold_left (λ (acc : gmap string ThreadMetadata) m, <[thread_id m := m]> acc)
            rows acc !! tid
  = match last (filter (λ m, thread_id m = tid) rows) with
    | Some m => Some m
    | None => acc !! tid
    end.
Proof.
  revert acc. induction rows as [|m rows IH]; intros acc; simpl; [done|].
  rewrite IH, filter_cons.
  destruct (decide (thread_id m = tid)) as [Heq|Hne].
  - rewrite last_cons.
    destruct (last (filter _ rows)); [done|]. by rewrite <- Heq, lookup_insert_eq.
  - destruct (last (filter _ rows)); [done|]. by rewrite lookup_insert_ne.
Qed.

Lemma build_metadata_map_lookup (ids : gset string) (db : database) (tid : string) :
  build_metadata_map ids db !! tid
  = if decide (tid ∈ ids)
    then last (filter (λ m, thread_id m = tid) (thread_metadata db))
    else None.
Proof.
  unfold build_metadata_map. rewrite metadata_fold_lookup, lookup_empty.
  rewrite list_filter_filter.
  destruct (decide (tid ∈ ids)) as [Hin|Hout].
  - rewrite (list_filter_iff _ (λ m, thread_id m = tid)).
    + by destruct (last _).
    + intros m. split; [by intros [? _]|]. intros Heq. split; [done|]. by rewrite Heq.
  - rewrite (list_filter_iff _ (λ _, False)).
    + by induction (thread_metadata db).
    + intros m. split; [|done]. intros [Heq Hm]. apply Hout. by rewrite <- Heq.
Qed.

Lemma build_metadata_map_key (ids : gset string) (db : database)
    (tid : string) (m : ThreadMetadata) :
  build_metadata_map ids db !! tid = Some m → thread_id m = tid.
Proof.
  rewrite build_metadata_map_lookup. case_decide; [|done].
  intros Hlast. apply last_Some_elem_of, list_elem_of_filter in Hlast. tauto.
Qed.

(** Under the primary key, a key has at most one record. *)
Lemma primary_key_unique (db : database) (tid : string) :
  primary_key db →
  last (filter (λ m, thread_id m = tid) (thread_metadata db)) = metadata_first tid db.
Proof.
  unfold primary_key, metadata_first.
  induction (thread_metadata db) as [|m rows IH]; [done|].
  rewrite fmap_cons, NoDup_cons. intros [Hm Hnd].
  rewrite filter_cons. destruct (decide (thread_id m = tid)) as [Heq|Hne]; [|auto].
  assert (Hnil : filter (λ m, thread_id m = tid) rows = []).
  { destruct (filter _ rows) as [|m' l] eqn:Hf; [done|]. exfalso.
    assert (Hm' : m' ∈ filter (λ m, thread_id m = tid) rows) by (rewrite Hf; left).
    apply list_elem_of_filter in Hm' as [Heq' Hm']. apply Hm.
    rewrite Heq, <- Heq'. by apply list_elem_of_fmap_2. }
  by rewrite Hnil.
Qed.

Lemma list_step_listed clk db metadata_map thread_list k tid :
  ∃ k', list_step clk db metadata_map (thread_list, k) tid
        = (thread_list ++ listed clk db metadata_map tid k, k').
Proof.
  unfold list_step, listed. destruct (metadata_map !! tid); [by eexists|].
  destruct (fallback_title tid db) as [t|].
  - destruct (content_truthy (Some t)); eexists; [done|by rewrite app_nil_r].
  - simpl. eexists. by rewrite app_nil_r.
Qed.

Lemma listed_thread_id clk db metadata_map tid k m :
  (∀ t m, metadata_map !! t = Some m → thread_id m = t) →
  m ∈ listed clk db metadata_map tid k → thread_id m = tid.
Proof.
  intros Hkey. unfold listed.
  destruct (metadata_map !! tid) as [m'|] eqn:Hm.
  - intros ->%list_elem_of_singleton. by apply Hkey.
  - destruct (fallback_title tid db) as [t|]; [|by intros ?%elem_of_nil].
    destruct (content_truthy (Some t)); [|by intros ?%elem_of_nil].
    by intros ->%list_elem_of_singleton.
Qed.

Lemma filter_all {A} (P : A → Prop) `{∀ x, Decision (P x)} (l : list A) :
  (∀ x, x ∈ l → P x) → filter P l = l.
Proof.
  induction l as [|x l IH]; intros Hall; [done|].
  rewrite filter_cons_True by (apply Hall; left).
  f_equal. apply IH. intros y Hy. apply Hall. by right.
Qed.

Lemma filter_none {A} (P : A → Prop) `{∀ x, Decision (P x)} (l : list A) :
  (∀ x, x ∈ l → ¬ P x) → filter P l = [].
Proof.
  induction l as [|x l IH]; intros Hall; [done|].
  rewrite filter_cons_False by (apply Hall; left).
  apply IH. intros y Hy. apply Hall. by right.
Qed.

(** The entries of one thread id in the result of the loop. *)
Lemma thread_list_fold clk db metadata_map (l : list string)
    (acc : list ThreadMetadata) (k : nat) (tid : string) :
  (∀ t m, metadata_map !! t = Some m → thread_id m = t) →
  NoDup l →
  ∃ k0,
    filter (λ m, thread_id m = tid)
           (fold_left (list_step clk db metadata_map) l (acc, k)).1
    = filter (λ m, thread_id m = tid) acc
      ++ (if decide (tid ∈ l) then listed clk db metadata_map tid k0 else []).
Proof.
  intros Hkey. revert acc k.
  induction l as [|t l IH]; intros acc k Hnd.
  - exists 0. case_decide as Hin; [by apply elem_of_nil in Hin|].
    by rewrite app_nil_r.
  - apply NoDup_cons in Hnd as [Ht Hnd].
    change (fold_left ?f (t :: l) ?a) with (fold_left f l (f a t)).
    destruct (list_step_listed clk db metadata_map acc k t) as [k' ->].
    destruct (IH (acc ++ listed clk db metadata_map t k) k' Hnd) as [k0 ->].
    rewrite filter_app. destruct (decide (t = tid)) as [Heq|Hne]; [subst t|].
    + exists k. rewrite (decide_False (P := tid ∈ l)) by done.
      rewrite decide_True by left. rewrite app_nil_r. f_equal.
      apply filter_all. intros m Hm. by eapply listed_thread_id.
    + exists k0. rewrite (filter_none _ (listed _ _ _ t k)).
      * rewrite app_nil_r. f_equal.
        destruct (decide (tid ∈ l)) as [Hin|Hout].
        -- rewrite decide_True; [done|by right].
        -- rewrite decide_False; [done|].
           intros [?|?]%elem_of_cons; congruence.
      * intros m Hm Heq. apply Hne. rewrite <- Heq. symmetry.
        by eapply listed_thread_id.
Qed.

(** The entries of a thread id in the result of [get_thread_list]. *)
Lemma get_thread_list_entries (clk : clock) (db : database) (tid : string) :
  ∃ k,
    filter (λ m, thread_id m = tid) (get_thread_list clk db)
    = if decide (tid ∈ scan_thread_ids db)
      then listed clk db (build_metadata_map (scan_thread_ids db) db) tid k
      else [].
Proof.
  unfold get_thread_list.
  destruct (thread_list_fold clk db (build_metadata_map (scan_thread_ids db) db)
              (elements (scan_thread_ids db)) [] 0 tid) as [k Hk].
  - apply build_metadata_map_key.
  - apply NoDup_elements.
  - exists k. rewrite Hk. simpl.
    destruct (decide (tid ∈ scan_thread_ids db)) as [Hin|Hout].
    + rewrite decide_True; [done|by apply elem_of_elements].
    + rewrite decide_False; [done|by rewrite elem_of_elements].
Qed.

(** Every listed thread was found by the scan. *)
Lemma get_thread_list_scanned (clk : clock) (db : database) (m : ThreadMetadata) :
  m ∈ get_thread_list clk db → thread_id m ∈ scan_thread_ids db.
Proof.
  intros Hm. destruct (get_thread_list_entries clk db (thread_id m)) as [k Hk].
  destruct (decide (thread_id m ∈ scan_thread_ids db)) as [|Hout]; [done|].
  assert (Hin : m ∈ filter (λ m', thread_id m' = thread_id m) (get_thread_list clk db))
    by (by apply list_elem_of_filter).
  rewrite Hk in Hin. by apply elem_of_nil in Hin.
Qed.

End ThreadList.

(** ** [get_thread_list]: the claims *)

Lemma first_human_content_head (messages : list message) :
  first_human_content messages
  = head (filter (λ m, msg_type m = Some "human") messages) ≫= msg_content.
Proof.
  induction messages as [|msg rest IH]; [done|].
  simpl first_human_content. rewrite filter_cons.
  case_bool_decide as Hh.
  - by rewrite decide_True.
  - by rewrite decide_False.
Qed.

(** Counterexample to C5 as stated: thread ["t1"] is found by the scan,
    has no stored metadata and no human message in its head checkpoint,
    and is left out of the list. *)
Lemma untitled_thread_omitted :
  elements (scan_thread_ids Sample.db) = ["t1"; "t2"] ∧
  metadata_first "t1" Sample.db = None ∧
  fallback_title "t1" Sample.db = None ∧
  get_thread_list Sample.clk Sample.db
  = [Build_ThreadMetadata "t2" (CStr "Old title") 10 20].
Proof. split_and!; vm_compute; reflexivity. Qed.

(** C5 (amended). [get_thread_list] lists only thread ids found by
    scanning the checkpoint log, each at most once. A scanned thread
    with a stored metadata record is listed with that record. A scanned
    thread without one is listed with a transient record (built for the
    result, the store is not written) whose title is the content of the
    first human message of its head checkpoint, when that content is
    non-empty; when the head checkpoint has no human message, or its
    content is empty, the thread is not listed. *)
Theorem thread_list_entries (clk : clock) (db : database) (tid : string) :
  primary_key db →
  (∃ k,
     filter (λ m, thread_id m = tid) (get_thread_list clk db)
     = if decide (tid ∈ scan_thread_ids db) then
         match metadata_first tid db with
         | Some stored => [stored]
         | None =>
             match fallback_title tid db with
             | Some t =>
                 if content_truthy (Some t)
                 then [Build_ThreadMetadata tid t (clk k) (clk (S k))]
                 else []
             | None => []
             end
         end
       else []) ∧
  fallback_title tid db
  = last (checkpoints_of tid db) ≫= λ state_tuple,
      head (filter (λ m, msg_type m = Some "human") (ck_messages state_tuple))
      ≫= msg_content.
Proof.
  intros Hpk. split.
  - destruct (get_thread_list_entries clk db tid) as [k Hk].
    exists k. rewrite Hk. case_decide as Hin; [|done].
    unfold listed. rewrite build_metadata_map_lookup, decide_True by done.
    by rewrite primary_key_unique.
  - unfold fallback_title, get_tuple.
    destruct (last (checkpoints_of tid db)); [|done].
    apply first_human_content_head.
Qed.

(** The sample store satisfies the primary key; thread ["t2"] is listed
    with its stored record. *)
Lemma thread_list_entries_witness :
  primary_key Sample.db ∧
  filter (λ m, thread_id m = "t2") (get_thread_list Sample.clk Sample.db)
  = [Build_ThreadMetadata "t2" (CStr "Old title") 10 20] ∧
  fallback_title "t2" Sample.db = Some (CStr "question").
Proof.
  assert (Hpk : primary_key Sample.db).
  { unfold primary_key. simpl. apply NoDup_singleton. }
  destruct (thread_list_entries Sample.clk Sample.db "t2" Hpk) as [[k Hk] Hf].
  split_and!; [exact Hpk| |reflexivity].
  rewrite Hk. reflexivity.
Defined.

(** ** [delete_thread]: the claims *)

Section Delete.

(** The store after both deletions of [delete_thread] are committed. *)
Lemma delete_thread_ok (tid : string) (db : database) :
  checkpoints_of tid db ≠ [] →
  delete_thread NoFault tid db
  = (true,
     Database (filter (λ r, ck_thread_id r ≠ tid) (checkpoints db))
              (filter (λ r, wr_thread_id r ≠ tid) (writes db))
              (filter (λ m, thread_id m ≠ tid) (thread_metadata db))).
Proof.
  intros Hck. unfold delete_thread.
  rewrite bool_decide_eq_false_2 by (by destruct (checkpoints_of tid db)).
  unfold metadata_first. simpl.
  destruct (head (filter _ (thread_metadata db))) eqn:Hhead; [done|].
  apply head_None in Hhead. by rewrite (filter_out_absent thread_id).
Qed.

Lemma delete_thread_absent (fault : delete_fault) (tid : string) (db : database) :
  checkpoints_of tid db = [] → delete_thread fault tid db = (false, db).
Proof.
  intros Hck. unfold delete_thread. rewrite Hck. by destruct fault.
Qed.

End Delete.

(** C4. [delete_thread] returns false, changing nothing, when the
    checkpoint log holds no checkpoint of the thread. Otherwise, when
    no statement fails, it returns true and the store afterwards holds
    exactly the checkpoint rows, writes rows and metadata records of
    the other threads: none of the thread's rows or records is left.
    After that the thread is not in the thread list, and deleting it
    again returns false. *)
Theorem delete_thread_removes (fault : delete_fault) (clk : clock)
    (tid : string) (db : database) :
  match checkpoints_of tid db with
  | [] => delete_thread fault tid db = (false, db)
  | _ :: _ =>
      ∃ db',
        delete_thread NoFault tid db = (true, db') ∧
        checkpoints db' = filter (λ r, ck_thread_id r ≠ tid) (checkpoints db) ∧
        writes db' = filter (λ r, wr_thread_id r ≠ tid) (writes db) ∧
        thread_metadata db' = filter (λ m, thread_id m ≠ tid) (thread_metadata db) ∧
        checkpoints_of tid db' = [] ∧ writes_of tid db' = [] ∧
        metadata_first tid db' = None ∧
        (∀ t, t ≠ tid →
              checkpoints_of t db' = checkpoints_of t db ∧
              writes_of t db' = writes_of t db ∧
              metadata_first t db' = metadata_first t db) ∧
        (tid ∉ scan_thread_ids db') ∧
        (∀ m, m ∈ get_thread_list clk db' → thread_id m ≠ tid) ∧
        delete_thread fault tid db' = (false, db')
  end.
Proof.
  destruct (checkpoints_of tid db) as [|r rows] eqn:Hck.
  - by apply delete_thread_absent.
  - eexists. split; [apply delete_thread_ok; by rewrite Hck|]. simpl.
    assert (Hgone :
      checkpoints_of tid
        (Database (filter (λ r, ck_thread_id r ≠ tid) (checkpoints db))
                  (filter (λ r, wr_thread_id r ≠ tid) (writes db))
                  (filter (λ m, thread_id m ≠ tid) (thread_metadata db))) = [])
      by (unfold checkpoints_of; simpl; apply (filter_out_same ck_thread_id)).
    assert (Hscan :
      tid ∉ scan_thread_ids
        (Database (filter (λ r, ck_thread_id r ≠ tid) (checkpoints db))
                  (filter (λ r, wr_thread_id r ≠ tid) (writes db))
                  (filter (λ m, thread_id m ≠ tid) (thread_metadata db)))).
    { rewrite elem_of_scan_thread_ids. intros [_ Hne]. by apply Hne. }
    split_and!; try done.
    + unfold writes_of. simpl. apply (filter_out_same wr_thread_id).
    + unfold metadata_first. simpl. by rewrite (filter_out_same thread_id).
    + intros t Hne. unfold checkpoints_of, writes_of, metadata_first. simpl.
      by rewrite (filter_out_other ck_thread_id), (filter_out_other wr_thread_id),
        (filter_out_other thread_id).
    + intros m Hm Heq. apply Hscan.
      apply get_thread_list_scanned in Hm. by rewrite Heq in Hm.
    + by apply delete_thread_absent.
Qed.

(** C10. [delete_thread] is not atomic with respect to its result: when
    the thread has checkpoints and the metadata deletion raises after
    the checkpoint-log deletion was committed, [delete_thread] returns
    false although every checkpoint row and writes row of the thread is
    gone for good; the metadata table is as it was, and the store is
    not the store before the call. *)
Theorem delete_thread_not_atomic (tid : string) (db : database) :
  checkpoints_of tid db ≠ [] →
  ∃ db',
    delete_thread FaultMetadata tid db = (false, db') ∧
    checkpoints_of tid db' = [] ∧ writes_of tid db' = [] ∧
    thread_metadata db' = thread_metadata db ∧
    checkpoints db' ≠ checkpoints db ∧ db' ≠ db.
Proof.
  intros Hck. unfold delete_thread.
  rewrite bool_decide_eq_false_2 by (by destruct (checkpoints_of tid db)).
  eexists. split; [done|].
  assert (Hne : filter (λ r, ck_thread_id r ≠ tid) (checkpoints db) ≠ checkpoints db).
  { intros Heq. apply Hck. unfold checkpoints_of. rewrite <- Heq.
    apply (filter_out_same ck_thread_id). }
  split_and!; simpl.
  - unfold checkpoints_of. simpl. apply (filter_out_same ck_thread_id).
  - unfold writes_of. simpl. apply (filter_out_same wr_thread_id).
  - done.
  - done.
  - intros Heq. apply Hne. by rewrite <- Heq at 2.
Qed.

(** The sample store, with the failure placed in the metadata session:
    the checkpoints of ["t2"] are gone and the result is false. *)
Lemma delete_thread_not_atomic_witness :
  checkpoints_of "t2" Sample.db ≠ [] ∧
  ∃ db',
    delete_thread FaultMetadata "t2" Sample.db = (false, db') ∧
    checkpoints_of "t2" db' = [] ∧ writes_of "t2" db' = [] ∧
    thread_metadata db' = thread_metadata Sample.db ∧
    checkpoints db' ≠ checkpoints Sample.db ∧ db' ≠ Sample.db.
Proof.
  assert (Hck : checkpoints_of "t2" Sample.db ≠ []) by (vm_compute; discriminate).
  split; [exact Hck|].
  exact (delete_thread_not_atomic "t2" Sample.db Hck).
Defined.

(** ** The primary key is an invariant of the two writers *)

Section PrimaryKey.

Lemma fmap_thread_id_retitle clk tid new_title (rows : list ThreadMetadata) :
  thread_id <$> (retitle clk tid new_title <$> rows) = thread_id <$> rows.
Proof.
  induction rows as [|m rows IH]; [done|].
  rewrite !fmap_cons, retitle_thread_id. by f_equal.
Qed.

Lemma rename_thread_primary_key clk session_fails tid new_title db :
  primary_key db →
  primary_key (rename_thread clk session_fails tid new_title db).2.
Proof.
  unfold primary_key, rename_thread. intros Hpk.
  destruct (get_tuple tid db); [|done].
  destruct session_fails; [done|]. simpl.
  destruct (head (filter (λ m, thread_id m = tid) (thread_metadata db)))
    as [old|] eqn:Hhead.
  - by rewrite (upsert_title_present _ _ _ _ _ Hhead), fmap_thread_id_retitle.
  - rewrite (upsert_title_absent _ _ _ _ Hhead), fmap_app. simpl.
    apply NoDup_app. split_and!; [done| |apply NoDup_singleton].
    intros t Ht ->%list_elem_of_singleton.
    apply list_elem_of_fmap in Ht as (m & Heq & Hm).
    apply head_None in Hhead.
    by apply (filter_nil_not_elem_of _ _ m Hhead).
Qed.

Lemma delete_thread_primary_key fault tid db :
  primary_key db → primary_key (delete_thread fault tid db).2.
Proof.
  unfold primary_key, delete_thread. intros Hpk.
  assert (Hsub : NoDup (thread_id <$> filter (λ m, thread_id m ≠ tid)
                                             (thread_metadata db))).
  { eapply sublist_NoDup; [exact Hpk|]. apply fmap_sublist, sublist_filter. }
  destruct fault; simpl; try done; case_bool_decide; simpl; try done.
  by destruct (metadata_first _ _).
Qed.

End PrimaryKey.

(** ** Runs on the sample data *)

(** Blocks that are not text are skipped; the others keep their order. *)
Example extract_content_mixed :
  _extract_content
    (CList [BDict {["type" := "text"; "text" := "Hel"]}; BOther;
            BDict {["type" := "image_url"]}; BStr "lo"]) = "Hello".
Proof. reflexivity. Qed.

(** Tool chunks, state dicts without messages and repeated texts yield
    no delta. *)
Example stream_loop_growing :
  stream_loop "" (PDict None :: PTuple [] :: Sample.growing)
  = ([EDelta "He"; EDelta "llo"], "Hello").
Proof. reflexivity. Qed.

(** A state-like dict is read through its last message. *)
Example stream_loop_state_dict :
  stream_loop "He" [PDict (Some [PMsg (Sample.human "q"); PMsg (Sample.ai "Hello")])]
  = ([EDelta "llo"], "Hello").
Proof. reflexivity. Qed.

(** The meta event repeats the caller's message id; the final event
    carries the id read from the engine state. *)
Example search_streaming_time_travel :
  search_streaming (Sample.engine Sample.growing StopIteration)
                   "u1" "q" (Some "t1") (Some "ck-1")
  = Trace [EMeta "t1" (Some "ck-1"); EDelta "He"; EDelta "llo";
           EFinal "Hello" "t1" (Some "ck-2")] Returned.
Proof. reflexivity. Qed.

Example event_generator_success :
  event_generator
    (search_streaming (Sample.engine Sample.growing StopIteration)
                      "u1" "q" None None)
  = [FText "He"; FText "llo"; FFinish; FAnnotation "u1" (Some "ck-2")].
Proof. reflexivity. Qed.

Example event_generator_failure :
  event_generator
    (search_streaming (Sample.engine Sample.resetting (IterRaises "boom"))
                      "u1" "q" None None)
  = [FText "ab"; FText "cd"; FError "boom"].
Proof. reflexivity. Qed.

Example rename_inserts :
  rename_thread Sample.clk false "t1" "First" Sample.db
  = (true,
     Database (checkpoints Sample.db) (writes Sample.db)
              [Build_ThreadMetadata "t2" (CStr "Old title") 10 20;
               Build_ThreadMetadata "t1" (CStr "First") 100 101]).
Proof. reflexivity. Qed.

Example rename_updates :
  rename_thread Sample.clk false "t2" "Second" Sample.db
  = (true,
     Database (checkpoints Sample.db) (writes Sample.db)
              [Build_ThreadMetadata "t2" (CStr "Second") 10 100]).
Proof. reflexivity. Qed.

Example rename_unknown :
  rename_thread Sample.clk false "nope" "Title" Sample.db = (false, Sample.db).
Proof. reflexivity. Qed.

Example delete_known :
  delete_thread NoFault "t2" Sample.db
  = (true, Database [CheckpointRow "t1" "c1" [Sample.ai "hi"]] [] []).
Proof. reflexivity. Qed.

Example delete_unknown :
  delete_thread NoFault "nope" Sample.db = (false, Sample.db).
Proof. reflexivity. Qed.

Example delete_rolled_back :
  delete_thread FaultDeleteRows "t2" Sample.db = (false, Sample.db).
Proof. reflexivity. Qed.

Example thread_list_after_rename :
  get_thread_list Sample.clk
    (rename_thread Sample.clk false "t1" "First" Sample.db).2
  = [Build_ThreadMetadata "t1" (CStr "First") 100 101;
     Build_ThreadMetadata "t2" (CStr "Old title") 10 20].
Proof. vm_compute. reflexivity. Qed.

(** * Further properties of the code *)

(** ** The delta loop *)

Section DeltaLoopMore.
Import PyStr PyStrFacts.

Lemma omap_cons_match {A B} (f : A → option B) (x : A) (l : list A) :
  omap f (x :: l)
  = match f x with Some y => y :: omap f l | None => omap f l end.
Proof. done. Qed.

Lemma chunk_text_nonempty (item : pyobj) (text : string) :
  chunk_text item = Some text → text ≠ "".
Proof.
  unfold chunk_text. destruct (message_chunk_of item) as [chunk|]; [|done].
  destruct (is_ai_class _); [|done].
  destruct (_extract_message_text chunk) as [t|]; [|done].
  destruct (truthy t) eqn:Ht; [|done]. intros [= <-]. by apply truthy_true.
Qed.

(** After an assistant text went through the loop body, it is the value
    of [last_emitted], whether or not a delta was yielded. *)
Lemma stream_step_state (last_emitted : string) (item : pyobj) (text : string) :
  chunk_text item = Some text → (stream_step last_emitted item).1 = text.
Proof.
  intros Htext. unfold stream_step. rewrite Htext.
  destruct (truthy (compute_delta last_emitted text)) eqn:Hd; [done|]. simpl.
  apply truthy_false in Hd. unfold compute_delta in Hd.
  destruct (startswith text last_emitted) eqn:Hsw.
  - apply startswith_slice in Hsw. rewrite Hd, append_nil_r in Hsw. done.
  - by destruct (chunk_text_nonempty _ _ Htext).
Qed.

Lemma stream_step_skip (last_emitted : string) (item : pyobj) :
  chunk_text item = None → stream_step last_emitted item = (last_emitted, None).
Proof. intros Hskip. unfold stream_step. by rewrite Hskip. Qed.

Lemma stream_loop_final_text (last_emitted : string) (items : list pyobj) :
  (stream_loop last_emitted items).2
  = default last_emitted (last (omap chunk_text items)).
Proof.
  revert last_emitted.
  induction items as [|item items IH]; intros last_emitted; [done|].
  simpl stream_loop. rewrite omap_cons_match.
  destruct (chunk_text item) as [text|] eqn:Htext.
  - pose proof (stream_step_state last_emitted _ _ Htext) as Hst.
    destruct (stream_step last_emitted item) as [last' evt]. simpl in Hst. subst last'.
    specialize (IH text). destruct (stream_loop text items) as [evts final_text].
    simpl in *. rewrite IH, last_cons. by destruct (last (omap chunk_text items)).
  - rewrite (stream_step_skip _ _ Htext).
    specialize (IH last_emitted).
    by destruct (stream_loop last_emitted items) as [evts final_text].
Qed.

Lemma compute_delta_empty_last (text : string) : compute_delta "" text = text.
Proof. by destruct text. Qed.

Lemma compute_delta_reset (last_emitted text : string) :
  (∀ suf, text ≠ last_emitted +:+ suf) → compute_delta last_emitted text = text.
Proof.
  intros Hreset. unfold compute_delta.
  destruct (startswith text last_emitted) eqn:Hsw; [|done].
  apply startswith_slice in Hsw. by destruct (Hreset _ Hsw).
Qed.

Lemma stream_loop_incremental (last_emitted : string) (items : list pyobj) :
  incremental (last_emitted :: omap chunk_text items) →
  delta_texts (stream_loop last_emitted items).1 = omap chunk_text items.
Proof.
  revert last_emitted.
  induction items as [|item items IH]; intros last_emitted Hinc; [done|].
  simpl stream_loop. rewrite omap_cons_match in *.
  destruct (chunk_text item) as [text|] eqn:Htext.
  - destruct Hinc as [Hreset Hinc]. unfold stream_step. rewrite Htext.
    rewrite (compute_delta_reset _ _ Hreset).
    rewrite (proj2 (truthy_true text)) by (by eapply chunk_text_nonempty).
    specialize (IH text Hinc). destruct (stream_loop text items) as [evts final_text].
    simpl in *. change (delta_texts (EDelta text :: evts)) with (text :: delta_texts evts).
    by rewrite IH.
  - rewrite (stream_step_skip _ _ Htext). specialize (IH last_emitted Hinc).
    destruct (stream_loop last_emitted items) as [evts final_text]. done.
Qed.

Lemma stream_loop_incremental_start (items : list pyobj) :
  incremental (omap chunk_text items) →
  delta_texts (stream_loop "" items).1 = omap chunk_text items.
Proof.
  induction items as [|item items IH]; intros Hinc; [done|].
  simpl stream_loop. rewrite omap_cons_match in *.
  destruct (chunk_text item) as [text|] eqn:Htext.
  - unfold stream_step. rewrite Htext, compute_delta_empty_last.
    rewrite (proj2 (truthy_true text)) by (by eapply chunk_text_nonempty).
    pose proof (stream_loop_incremental text items Hinc) as Hrest.
    destruct (stream_loop text items) as [evts final_text]. simpl in *.
    change (delta_texts (EDelta text :: evts)) with (text :: delta_texts evts).
    by rewrite Hrest.
  - rewrite (stream_step_skip _ _ Htext). specialize (IH Hinc).
    destruct (stream_loop "" items) as [evts final_text]. done.
Qed.

End DeltaLoopMore.

(** X1. Items the loop body skips (non-assistant messages, chunks with
    no or empty text, items without a message) have no effect on the
    stream: removing one, wherever it stands, leaves the events and the
    final text unchanged. *)
Theorem skipped_items_have_no_effect (last_emitted : string)
    (items1 items2 : list pyobj) (item : pyobj) :
  chunk_text item = None →
  stream_loop last_emitted (items1 ++ item :: items2)
  = stream_loop last_emitted (items1 ++ items2).
Proof.
  intros Hskip. rewrite !stream_loop_app.
  destruct (stream_loop last_emitted items1) as [evts1 mid].
  simpl stream_loop. rewrite (stream_step_skip _ _ Hskip).
  by destruct (stream_loop mid items2).
Qed.

(** A tool message between two assistant chunks changes nothing. *)
Lemma skipped_items_have_no_effect_witness :
  chunk_text (Sample.chunk (Sample.tool "x")) = None ∧
  stream_loop "" ([Sample.chunk (Sample.ai "He")]
                  ++ Sample.chunk (Sample.tool "x") :: [Sample.chunk (Sample.ai "Hello")])
  = stream_loop "" ([Sample.chunk (Sample.ai "He")] ++ [Sample.chunk (Sample.ai "Hello")]).
Proof.
  split; [reflexivity|].
  exact (skipped_items_have_no_effect "" [Sample.chunk (Sample.ai "He")]
           [Sample.chunk (Sample.ai "Hello")] (Sample.chunk (Sample.tool "x")) eq_refl).
Defined.

(** X2. The response of the final event is the last non-empty assistant
    text the engine yielded, and the empty string when it yielded
    none. *)
Theorem final_response_is_last_text (ag : agent) (fresh query : string)
    (tid mid : option string) (response : string) :
  final_response (events (search_streaming ag fresh query tid mid)) = Some response →
  response
  = default ""
      (last (omap chunk_text
               (streamed_items ag (Config (default fresh tid) mid) query))).
Proof.
  intros Hfinal. apply final_response_inv in Hfinal as ->.
  apply stream_loop_final_text.
Qed.

(** After a reset the final response is the text of the last chunk. *)
Lemma final_response_is_last_text_witness :
  final_response
    (events (search_streaming (Sample.engine Sample.resetting StopIteration)
                              "u1" "q" None None)) = Some "cd" ∧
  "cd" = default ""
           (last (omap chunk_text
                    (streamed_items (Sample.engine Sample.resetting StopIteration)
                                    (Config (default "u1" None) None) "q"))).
Proof.
  split; [reflexivity|].
  exact (final_response_is_last_text
           (Sample.engine Sample.resetting StopIteration) "u1" "q" None None "cd"
           eq_refl).
Defined.

(** X3. When the engine yields increments (no assistant text has its
    predecessor as a prefix), every text is emitted whole: the delta
    events carry exactly the assistant texts, in order. *)
Theorem incremental_chunks_pass_through (ag : agent) (fresh query : string)
    (tid mid : option string) :
  incremental
    (omap chunk_text (streamed_items ag (Config (default fresh tid) mid) query)) →
  delta_texts (events (search_streaming ag fresh query tid mid))
  = omap chunk_text (streamed_items ag (Config (default fresh tid) mid) query).
Proof.
  intros Hinc. rewrite search_streaming_delta_texts.
  by apply stream_loop_incremental_start.
Qed.

Lemma incremental_chunks_pass_through_witness :
  incremental
    (omap chunk_text
       (streamed_items (Sample.engine Sample.resetting StopIteration)
                       (Config (default "u1" None) None) "q")) ∧
  delta_texts
    (events (search_streaming (Sample.engine Sample.resetting StopIteration)
                              "u1" "q" None None)) = ["ab"; "cd"].
Proof.
  assert (Hinc : incremental
            (omap chunk_text
               (streamed_items (Sample.engine Sample.resetting StopIteration)
                               (Config (default "u1" None) None) "q"))).
  { vm_compute. split; [|done]. intros suf. discriminate. }
  split; [exact Hinc|].
  exact (incremental_chunks_pass_through
           (Sample.engine Sample.resetting StopIteration) "u1" "q" None None Hinc).
Defined.

(** X4. The text frames [event_generator] sends are exactly the
    contents of the delta events, in order, and none of them is
    empty. *)
Theorem text_frames_are_nonempty_deltas (ag : agent) (fresh query : string)
    (tid mid : option string) :
  frame_texts (event_generator (search_streaming ag fresh query tid mid))
  = delta_texts (events (search_streaming ag fresh query tid mid)) ∧
  Forall (λ d, d ≠ "")
         (delta_texts (events (search_streaming ag fresh query tid mid))).
Proof.
  assert (Hft : ∀ ds rest,
            frame_texts ((FText <$> ds) ++ rest) = ds ++ frame_texts rest).
  { intros ds rest. induction ds as [|d ds IH]; [done|].
    rewrite fmap_cons. simpl. unfold frame_texts in *. simpl. by rewrite IH. }
  split.
  - destruct (search_streaming_cases ag fresh query tid mid)
      as [(exc & _ & ->)|[(items & exc & _ & ->)|[(items & exc & _ & _ & ->)
         |(items & c & _ & _ & ->)]]]; [done| | |];
      destruct (stream_loop_all_deltas "" items) as [ds ->];
      unfold event_generator; simpl events; simpl finish;
      change (delta_texts (EMeta ?t ?m :: ?l)) with (delta_texts l);
      simpl frame_loop.
    + rewrite frame_loop_deltas, Hft, delta_texts_deltas. apply app_nil_r.
    + rewrite frame_loop_deltas, Hft, delta_texts_deltas. apply app_nil_r.
    + rewrite frame_loop_app, frame_loop_deltas. simpl.
      rewrite app_nil_r, Hft, delta_texts_app, delta_texts_deltas. simpl.
      destruct (PyStr.truthy _); reflexivity.
  - rewrite search_streaming_delta_texts.
    pose proof (stream_loop_deltas ""
      (streamed_items ag (Config (default fresh tid) mid) query)) as Hall.
    induction Hall as [|e evts (d & -> & Hd) _ IH]; [done|].
    change (delta_texts (EDelta d :: evts)) with (d :: delta_texts evts).
    by constructor.
Qed.

(** ** [search] *)

(** X5. When [search] returns, its response is the extracted text of
    the last message of the engine's result and of no other message;
    its thread id is the caller's, or the fresh one when the caller
    gave none; its message id is the checkpoint id read from the
    engine's state. *)
Theorem search_returns_last_message_text
    (invoke : config → string → string + list message) (ag : agent)
    (fresh query : string) (tid mid : option string) (r : search_result) :
  search invoke ag fresh query tid mid = inr r →
  sr_thread_id r = default fresh tid ∧
  (∃ earlier last_message c,
     invoke (Config (default fresh tid) mid) query = inr (earlier ++ [last_message]) ∧
     msg_content last_message = Some c ∧
     sr_response r = _extract_content c) ∧
  (∃ configurable,
     agent_get_state ag (Config (default fresh tid) mid) = inr configurable ∧
     sr_message_id r = default ∅ configurable !! "checkpoint_id").
Proof.
  unfold search.
  destruct (invoke _ query) as [exc|messages]; [done|].
  destruct (last messages) as [last_message|] eqn:Hlast; [|done].
  destruct (msg_content last_message) as [c|] eqn:Hc; [|done].
  destruct (agent_get_state ag _) as [exc|configurable]; [done|].
  intros [= <-]. simpl. split_and!; [done| |by eexists].
  apply last_Some in Hlast as [earlier ->].
  exists earlier, last_message, c. split_and!; [done|done|by destruct c].
Qed.

Lemma search_returns_last_message_text_witness :
  search Sample2.invoke (Sample.engine [] StopIteration) "u1" "q" None None
  = inr (SearchResult "Hello" "u1" (Some "ck-2")) ∧
  sr_thread_id (SearchResult "Hello" "u1" (Some "ck-2")) = default "u1" None.
Proof.
  split; [reflexivity|].
  exact (proj1 (search_returns_last_message_text Sample2.invoke
                  (Sample.engine [] StopIteration) "u1" "q" None None _ eq_refl)).
Defined.

(** ** [get_thread] and [get_thread_history] *)

Section Reads.

Lemma message_views_ok (messages : list message) (views : list message_view) :
  message_views messages = inr views →
  length views = length messages ∧
  ∀ i msg, messages !! i = Some msg →
    ∃ c, msg_content msg = Some c ∧
         views !! i = Some (MessageView (default (class_name msg) (msg_type msg))
                                        (_extract_content c) (msg_id msg)).
Proof.
  revert views. induction messages as [|m messages IH]; intros views; simpl.
  - intros [= <-]. split; [done|]. intros i msg Hi. by rewrite lookup_nil in Hi.
  - destruct (msg_content m) as [c|] eqn:Hc; [|done].
    destruct (message_views messages) as [exc|rest]; [done|].
    intros [= <-]. destruct (IH rest eq_refl) as [Hlen Hall]. split.
    + simpl. by rewrite Hlen.
    + intros [|i] msg Hi; simpl in *.
      * injection Hi as <-. eauto.
      * by apply Hall.
Qed.

Lemma message_views_raises (messages : list message) (exc : string) :
  message_views messages = inl exc →
  ∃ msg, msg ∈ messages ∧ msg_content msg = None.
Proof.
  revert exc. induction messages as [|m messages IH]; intros exc; simpl; [done|].
  destruct (msg_content m) as [c|] eqn:Hc.
  - destruct (message_views messages) as [exc'|rest]; [|done].
    intros _. destruct (IH exc' eq_refl) as (msg & Hin & Hnone).
    exists msg. split; [by right|done].
  - intros _. exists m. split; [left|done].
Qed.

Lemma get_thread_no_checkpoints (tid : string) (db : database) :
  checkpoints_of tid db = [] → get_thread tid db = inr [].
Proof.
  intros Hck. unfold get_thread.
  by rewrite (proj2 (get_tuple_None tid db) Hck).
Qed.

Lemma get_thread_history_no_checkpoints stamp (tid : string) (db : database) :
  checkpoints_of tid db = [] → get_thread_history stamp tid db = inr [].
Proof. intros Hck. unfold get_thread_history. by rewrite Hck. Qed.

Lemma history_loop_ok stamp (states : list checkpoint_row) (history : list history_entry) :
  history_loop stamp states = inr history →
  he_message_id <$> history = (λ r, Some (ck_checkpoint_id r)) <$> states ∧
  he_message_count <$> history = (λ r, length (ck_messages r)) <$> states ∧
  he_created_at <$> history = stamp <$> states.
Proof.
  revert history. induction states as [|state states IH]; intros history; simpl.
  - by intros [= <-].
  - destruct (history_entry_of stamp state) as [exc|entry] eqn:Hentry; [done|].
    destruct (history_loop stamp states) as [exc|rest]; [done|].
    intros [= <-]. destruct (IH rest eq_refl) as (Hid & Hcount & Hstamp).
    rewrite !fmap_cons, Hid, Hcount, Hstamp.
    unfold history_entry_of in Hentry.
    destruct (last (ck_messages state)) as [m|].
    + destruct (msg_content m); [|done]. by injection Hentry as <-.
    + by injection Hentry as <-.
Qed.

(** The checkpoints of a thread after [delete_thread], whatever
    happened. *)
Lemma delete_thread_checkpoints (fault : delete_fault) (tid t : string)
    (db : database) :
  t ≠ tid →
  checkpoints_of t (delete_thread fault tid db).2 = checkpoints_of t db.
Proof.
  intros Hne. unfold delete_thread.
  destruct fault; try done; case_bool_decide; try done; simpl;
    unfold checkpoints_of; simpl; by rewrite (filter_out_other ck_thread_id).
Qed.

Lemma rename_thread_checkpoints clk session_fails (tid title : string)
    (db : database) :
  checkpoints (rename_thread clk session_fails tid title db).2 = checkpoints db.
Proof.
  unfold rename_thread. destruct (get_tuple tid db); [|done].
  by destruct session_fails.
Qed.

End Reads.

(** X7. After [delete_thread] returned true, [get_thread] on that
    thread returns the empty list and so does [get_thread_history]. *)
Theorem reads_empty_after_delete (fault : delete_fault)
    (stamp : checkpoint_row → Z) (tid : string) (db : database) :
  (delete_thread fault tid db).1 = true →
  get_thread tid (delete_thread fault tid db).2 = inr [] ∧
  get_thread_history stamp tid (delete_thread fault tid db).2 = inr [].
Proof.
  intros Hok.
  assert (Hgone : checkpoints_of tid (delete_thread fault tid db).2 = []).
  { unfold delete_thread in *.
    destruct fault; try done; case_bool_decide; try done; simpl in *; try done.
    unfold checkpoints_of. simpl. apply (filter_out_same ck_thread_id). }
  split.
  - by apply get_thread_no_checkpoints.
  - by apply get_thread_history_no_checkpoints.
Qed.

Lemma reads_empty_after_delete_witness :
  (delete_thread NoFault "t2" Sample.db).1 = true ∧
  get_thread "t2" (delete_thread NoFault "t2" Sample.db).2 = inr [] ∧
  get_thread_history Sample2.stamp "t2" (delete_thread NoFault "t2" Sample.db).2
  = inr [].
Proof.
  split; [reflexivity|].
  exact (reads_empty_after_delete NoFault Sample2.stamp "t2" Sample.db eq_refl).
Defined.

(** X8. When [get_thread] returns, it returns one entry per message of
    the thread's most recent checkpoint, in order, each with the
    message's type (its class name when it has no type), its extracted
    text and its id, and every one of those messages has a content; for
    a thread without checkpoints the returned list is empty. *)
Theorem get_thread_entries (tid : string) (db : database)
    (views : list message_view) :
  get_thread tid db = inr views →
  length views = length (from_option ck_messages [] (get_tuple tid db)) ∧
  (∀ i msg,
     from_option ck_messages [] (get_tuple tid db) !! i = Some msg →
     ∃ c, msg_content msg = Some c ∧
          views !! i
          = Some (MessageView (default (class_name msg) (msg_type msg))
                              (_extract_content c) (msg_id msg))) ∧
  (checkpoints_of tid db = [] → views = []).
Proof.
  unfold get_thread. intros Hviews.
  destruct (get_tuple tid db) as [state|] eqn:Htuple; simpl.
  - destruct (message_views_ok _ _ Hviews) as [Hlen Hall].
    split_and!; [done|done|].
    intros Hck. apply get_tuple_None in Hck. congruence.
  - injection Hviews as <-. split_and!; [done| |done].
    intros i msg Hi. by rewrite lookup_nil in Hi.
Qed.

(** The head checkpoint of ["t2"] holds three messages; [get_thread]
    shows them in order. *)
Lemma get_thread_entries_witness :
  get_thread "t2" Sample.db
  = inr [MessageView "human" "question" (Some "m1");
         MessageView "AIMessageChunk" "answer" None;
         MessageView "human" "more" (Some "m1")] ∧
  length [MessageView "human" "question" (Some "m1");
          MessageView "AIMessageChunk" "answer" None;
          MessageView "human" "more" (Some "m1")]
  = length (from_option ck_messages [] (get_tuple "t2" Sample.db)).
Proof.
  split; [reflexivity|].
  exact (proj1 (get_thread_entries "t2" Sample.db _ eq_refl)).
Defined.

(** X9. When [get_thread_history] returns, it has one entry per
    checkpoint of the thread, most recent first: the message ids are
    the checkpoint ids in reverse order of creation, each entry counts
    the messages of its checkpoint, and the first entry is the
    checkpoint whose messages [get_thread] shows. *)
Theorem thread_history_newest_first (stamp : checkpoint_row → Z)
    (tid : string) (db : database) (history : list history_entry) :
  get_thread_history stamp tid db = inr history →
  he_message_id <$> history
  = (λ r, Some (ck_checkpoint_id r)) <$> reverse (checkpoints_of tid db) ∧
  he_message_count <$> history
  = (λ r, length (ck_messages r)) <$> reverse (checkpoints_of tid db) ∧
  he_message_id <$> head history = Some ∘ ck_checkpoint_id <$> get_tuple tid db ∧
  ∀ views, get_thread tid db = inr views →
           he_message_count <$> head history
           = (λ _, length views) <$> get_tuple tid db.
Proof.
  unfold get_thread_history. intros Hloop.
  destruct (history_loop_ok _ _ _ Hloop) as (Hid & Hcount & _).
  split_and!; [done|done| |].
  - unfold get_tuple. rewrite <- head_reverse.
    destruct history as [|e h], (reverse (checkpoints_of tid db)) as [|r rs];
      simpl in *; congruence.
  - intros views Hviews. unfold get_thread in Hviews. unfold get_tuple in *.
    rewrite <- head_reverse in *.
    destruct history as [|e h], (reverse (checkpoints_of tid db)) as [|r rs];
      simpl in *; try congruence.
    apply message_views_ok in Hviews as [-> _]. congruence.
Qed.

Lemma thread_history_newest_first_witness :
  get_thread_history Sample2.stamp "t2" Sample.db
  = inr [HistoryEntry (Some "c3") 3 3 (Some "HumanMessage") (Some "more");
         HistoryEntry (Some "c2") 2 2 (Some "AIMessageChunk") (Some "answer")] ∧
  he_message_id <$> [HistoryEntry (Some "c3") 3 3 (Some "HumanMessage") (Some "more");
         HistoryEntry (Some "c2") 2 2 (Some "AIMessageChunk") (Some "answer")]
  = (λ r, Some (ck_checkpoint_id r)) <$> reverse (checkpoints_of "t2" Sample.db).
Proof.
  split; [reflexivity|].
  exact (proj1 (thread_history_newest_first Sample2.stamp "t2" Sample.db _ eq_refl)).
Defined.

(** X10. Reads are unaffected by writes to other data: [rename_thread],
    whatever its outcome, leaves the checkpoint log as it is and so
    never changes what [get_thread] and [get_thread_history] return,
    for any thread; [delete_thread] on one thread, whatever its
    outcome, does not change them for another thread. *)
Theorem reads_unaffected_by_other_writes (clk : clock) (session_fails : bool)
    (fault : delete_fault) (stamp : checkpoint_row → Z)
    (tid t title : string) (db : database) :
  t ≠ tid →
  checkpoints (rename_thread clk session_fails tid title db).2 = checkpoints db ∧
  writes (rename_thread clk session_fails tid title db).2 = writes db ∧
  (∀ t',
     get_thread t' (rename_thread clk session_fails tid title db).2
     = get_thread t' db ∧
     get_thread_history stamp t' (rename_thread clk session_fails tid title db).2
     = get_thread_history stamp t' db) ∧
  get_thread t (delete_thread fault tid db).2 = get_thread t db ∧
  get_thread_history stamp t (delete_thread fault tid db).2
  = get_thread_history stamp t db.
Proof.
  intros Hne. split_and!.
  - apply rename_thread_checkpoints.
  - unfold rename_thread. destruct (get_tuple tid db); [|done].
    by destruct session_fails.
  - intros t'. unfold get_thread, get_thread_history, get_tuple, checkpoints_of.
    by rewrite rename_thread_checkpoints.
  - unfold get_thread, get_tuple.
    by rewrite (delete_thread_checkpoints fault tid t db Hne).
  - unfold get_thread_history.
    by rewrite (delete_thread_checkpoints fault tid t db Hne).
Qed.

(** Deleting ["t2"] leaves the messages of ["t1"]; renaming ["t2"]
    leaves those of ["t1"] and of ["t2"]. *)
Lemma reads_unaffected_by_other_writes_witness :
  "t1" ≠ "t2" ∧
  get_thread "t1" (delete_thread NoFault "t2" Sample.db).2 = get_thread "t1" Sample.db ∧
  get_thread "t1" (rename_thread Sample.clk false "t2" "x" Sample.db).2
  = get_thread "t1" Sample.db.
Proof.
  assert (Hne : "t1" ≠ "t2") by discriminate.
  destruct (reads_unaffected_by_other_writes Sample.clk false NoFault Sample2.stamp
              "t2" "t1" "x" Sample.db Hne) as (_ & _ & Hren & Hdel & _).
  split_and!; [exact Hne|exact Hdel|exact (proj1 (Hren "t1"))].
Defined.

(** ** Listing, renaming and deleting together *)

Section Lifecycle.

Lemma listed_titles_spec (clk : clock) (db : database) (tid : string) :
  primary_key db →
  title <$> filter (λ m, thread_id m = tid) (get_thread_list clk db)
  = listed_titles db tid.
Proof.
  intros Hpk. destruct (get_thread_list_entries clk db tid) as [k ->].
  unfold listed_titles. case_decide as Hin; [|done].
  unfold listed. rewrite build_metadata_map_lookup, decide_True by done.
  rewrite primary_key_unique by done.
  destruct (metadata_first tid db); [done|].
  destruct (fallback_title tid db) as [t|]; [|done].
  by destruct (content_truthy (Some t)).
Qed.

Lemma listed_titles_ext (db db' : database) (t : string) :
  checkpoints_of t db' = checkpoints_of t db →
  metadata_first t db' = metadata_first t db →
  listed_titles db' t = listed_titles db t.
Proof.
  intros Hck Hmeta. unfold listed_titles, fallback_title, get_tuple.
  rewrite Hck, Hmeta.
  destruct (decide (t ∈ scan_thread_ids db)) as [Hin|Hout].
  - rewrite decide_True; [done|].
    apply elem_of_scan_thread_ids. rewrite Hck. by apply elem_of_scan_thread_ids.
  - rewrite decide_False; [done|]. intros Hin. apply Hout.
    apply elem_of_scan_thread_ids. rewrite <- Hck. by apply elem_of_scan_thread_ids.
Qed.

Lemma delete_thread_metadata_other (fault : delete_fault) (tid t : string)
    (db : database) :
  t ≠ tid →
  metadata_first t (delete_thread fault tid db).2 = metadata_first t db.
Proof.
  intros Hne. unfold delete_thread.
  destruct fault; try done; case_bool_decide; try done; simpl.
  unfold metadata_first at 1. simpl.
  destruct (metadata_first tid _); [|done].
  unfold metadata_first. by rewrite (filter_out_other thread_id).
Qed.

Lemma rename_thread_metadata_other clk session_fails (tid t title : string)
    (db : database) :
  t ≠ tid →
  metadata_first t (rename_thread clk session_fails tid title db).2
  = metadata_first t db.
Proof.
  intros Hne. unfold rename_thread. destruct (get_tuple tid db); [|done].
  destruct session_fails; [done|]. unfold metadata_first. simpl.
  by rewrite upsert_title_other.
Qed.

Lemma filter_out_upsert clk (tid title : string) (rows : list ThreadMetadata) :
  filter (λ m, thread_id m ≠ tid) (upsert_title clk tid title rows)
  = filter (λ m, thread_id m ≠ tid) rows.
Proof.
  destruct (head (filter (λ m, thread_id m = tid) rows)) as [old|] eqn:Hhead.
  - rewrite (upsert_title_present _ _ _ _ _ Hhead). clear Hhead.
    induction rows as [|m rows IH]; [done|].
    rewrite fmap_cons, !filter_cons, retitle_thread_id.
    destruct (decide (thread_id m ≠ tid)) as [Hne|_]; [|done].
    by rewrite IH, (retitle_other _ _ _ _ Hne).
  - rewrite (upsert_title_absent _ _ _ _ Hhead), filter_app.
    rewrite (filter_cons_False _ (Build_ThreadMetadata _ _ _ _)) by (simpl; tauto).
    apply app_nil_r.
Qed.

(** If no key occurs twice through [f], [f <$> l] has no duplicates. *)
Lemma NoDup_fmap_filter {A} (f : A → string) (l : list A) :
  (∀ x, length (filter (λ a, f a = x) l) ≤ 1) → NoDup (f <$> l).
Proof.
  induction l as [|a l IH]; intros Hone; [constructor|].
  rewrite fmap_cons. apply NoDup_cons. split.
  - intros Hin. apply list_elem_of_fmap in Hin as (b & Heq & Hb).
    specialize (Hone (f a)). rewrite filter_cons_True in Hone by done.
    assert (Hbf : b ∈ filter (λ a0, f a0 = f a) l)
      by (by apply list_elem_of_filter).
    destruct (filter (λ a0, f a0 = f a) l); [by apply elem_of_nil in Hbf|].
    simpl in Hone. lia.
  - apply IH. intros x. specialize (Hone x). rewrite filter_cons in Hone.
    destruct (decide (f a = x)); simpl in Hone; lia.
Qed.

Lemma listed_length clk db metadata_map tid k :
  length (listed clk db metadata_map tid k) ≤ 1.
Proof.
  unfold listed. destruct (metadata_map !! tid); [done|].
  destruct (fallback_title tid db) as [t|]; [|simpl; lia].
  destruct (content_truthy (Some t)); simpl; lia.
Qed.

End Lifecycle.

(** X11. [get_thread_list] never lists a thread id twice. *)
Theorem thread_list_ids_distinct (clk : clock) (db : database) :
  NoDup (thread_id <$> get_thread_list clk db).
Proof.
  apply NoDup_fmap_filter. intros tid.
  destruct (get_thread_list_entries clk db tid) as [k ->].
  case_decide; [apply listed_length|simpl; lia].
Qed.

(** X12. After a successful rename of a thread with a non-empty id, the
    thread list shows the thread exactly once, under the new title. *)
Theorem renamed_thread_is_listed (clk clk' : clock) (tid new_title : string)
    (db : database) :
  primary_key db → tid ≠ "" → checkpoints_of tid db ≠ [] →
  (rename_thread clk false tid new_title db).1 = true ∧
  title <$> filter (λ m, thread_id m = tid)
                   (get_thread_list clk' (rename_thread clk false tid new_title db).2)
  = [CStr new_title].
Proof.
  intros Hpk Hne Hck.
  rewrite listed_titles_spec by (by apply rename_thread_primary_key).
  unfold rename_thread.
  destruct (get_tuple tid db) eqn:Htuple; [|by apply get_tuple_None in Htuple].
  split; [done|]. simpl. unfold listed_titles.
  rewrite decide_True by (by apply elem_of_scan_thread_ids).
  unfold metadata_first. simpl. rewrite upsert_title_first.
  by destruct (head _).
Qed.

Lemma renamed_thread_is_listed_witness :
  primary_key Sample.db ∧ "t1" ≠ "" ∧ checkpoints_of "t1" Sample.db ≠ [] ∧
  title <$> filter (λ m, thread_id m = "t1")
                   (get_thread_list Sample.clk
                      (rename_thread Sample.clk false "t1" "First" Sample.db).2)
  = [CStr "First"].
Proof.
  assert (Hpk : primary_key Sample.db).
  { unfold primary_key. simpl. apply NoDup_singleton. }
  assert (Hne : "t1" ≠ "") by discriminate.
  assert (Hck : checkpoints_of "t1" Sample.db ≠ []) by (vm_compute; discriminate).
  split_and!; [exact Hpk|exact Hne|exact Hck|].
  exact (proj2 (renamed_thread_is_listed Sample.clk Sample.clk "t1" "First"
                  Sample.db Hpk Hne Hck)).
Defined.

(** X13. A thread whose id is the empty string is never listed, though
    it can be renamed like any other thread that has checkpoints. *)
Theorem empty_id_thread_is_hidden (clk clk' : clock) (new_title : string)
    (db : database) :
  checkpoints_of "" db ≠ [] →
  (rename_thread clk false "" new_title db).1 = true ∧
  Forall (λ m, thread_id m ≠ "") (get_thread_list clk' db) ∧
  Forall (λ m, thread_id m ≠ "")
         (get_thread_list clk' (rename_thread clk false "" new_title db).2).
Proof.
  intros Hck. split_and!.
  - unfold rename_thread.
    by destruct (get_tuple "" db) eqn:Htuple; [|apply get_tuple_None in Htuple].
  - apply Forall_forall. intros m Hm%get_thread_list_scanned.
    by apply elem_of_scan_thread_ids in Hm as [Hne _].
  - apply Forall_forall. intros m Hm%get_thread_list_scanned.
    by apply elem_of_scan_thread_ids in Hm as [Hne _].
Qed.

Lemma empty_id_thread_is_hidden_witness :
  checkpoints_of "" Sample2.db_empty_id ≠ [] ∧
  (rename_thread Sample.clk false "" "Title" Sample2.db_empty_id).1 = true ∧
  get_thread_list Sample.clk
    (rename_thread Sample.clk false "" "Title" Sample2.db_empty_id).2 = [].
Proof.
  assert (Hck : checkpoints_of "" Sample2.db_empty_id ≠ [])
    by (vm_compute; discriminate).
  split_and!; [exact Hck| |vm_compute; reflexivity].
  exact (proj1 (empty_id_thread_is_hidden Sample.clk Sample.clk "Title"
                  Sample2.db_empty_id Hck)).
Defined.

(** X14. Renaming or deleting one thread does not change whether
    another thread is listed, nor the title it is listed under,
    whatever the outcome of the operation. *)
Theorem other_threads_listing_unchanged (clk clk1 clk2 : clock)
    (session_fails : bool) (fault : delete_fault)
    (tid t new_title : string) (db : database) :
  primary_key db → t ≠ tid →
  title <$> filter (λ m, thread_id m = t)
                   (get_thread_list clk1
                      (rename_thread clk session_fails tid new_title db).2)
  = title <$> filter (λ m, thread_id m = t) (get_thread_list clk2 db) ∧
  title <$> filter (λ m, thread_id m = t)
                   (get_thread_list clk1 (delete_thread fault tid db).2)
  = title <$> filter (λ m, thread_id m = t) (get_thread_list clk2 db).
Proof.
  intros Hpk Hne.
  rewrite !listed_titles_spec
    by (done || by apply rename_thread_primary_key
             || by apply delete_thread_primary_key).
  split; apply listed_titles_ext.
  - unfold checkpoints_of. by rewrite rename_thread_checkpoints.
  - by apply rename_thread_metadata_other.
  - by apply delete_thread_checkpoints.
  - by apply delete_thread_metadata_other.
Qed.

Lemma other_threads_listing_unchanged_witness :
  primary_key Sample.db ∧ "t2" ≠ "t1" ∧
  title <$> filter (λ m, thread_id m = "t2")
                   (get_thread_list Sample.clk (delete_thread NoFault "t1" Sample.db).2)
  = title <$> filter (λ m, thread_id m = "t2") (get_thread_list Sample.clk Sample.db).
Proof.
  assert (Hpk : primary_key Sample.db).
  { unfold primary_key. simpl. apply NoDup_singleton. }
  assert (Hne : "t2" ≠ "t1") by discriminate.
  split_and!; [exact Hpk|exact Hne|].
  exact (proj2 (other_threads_listing_unchanged Sample.clk Sample.clk Sample.clk
                  false NoFault "t1" "t2" "x" Sample.db Hpk Hne)).
Defined.



(** X16. Renaming a thread before deleting it makes no difference: the
    delete gives the same result and the same store as without the
    rename, whether or not the rename succeeded. *)
Theorem delete_forgets_rename (clk : clock) (session_fails : bool)
    (tid new_title : string) (db : database) :
  delete_thread NoFault tid (rename_thread clk session_fails tid new_title db).2
  = delete_thread NoFault tid db.
Proof.
  destruct (decide (checkpoints_of tid db = [])) as [Hnil|Hck].
  - unfold rename_thread. by rewrite (proj2 (get_tuple_None _ _) Hnil).
  - assert (Hck' : checkpoints_of tid
                     (rename_thread clk session_fails tid new_title db).2 ≠ []).
    { unfold checkpoints_of. by rewrite rename_thread_checkpoints. }
    rewrite (delete_thread_ok _ _ Hck), (delete_thread_ok _ _ Hck').
    rewrite rename_thread_checkpoints. unfold rename_thread.
    destruct (get_tuple tid db); [|done]. destruct session_fails; [done|].
    simpl. by rewrite filter_out_upsert.
Qed.

(** X17. The endpoints answer "Thread not found" whenever
    [rename_thread] or [delete_thread] returns false, and that includes
    the failures their [try] blocks catch: when a thread has
    checkpoints and a statement inside the [try] block of
    [delete_thread] raises, or the session of [rename_thread] raises,
    the response is the one an unknown thread gets. After a failure in
    the metadata step of the delete the thread's checkpoints are gone
    although the response reports no success. (A statement that raises
    before the [try] block is entered is not caught and is outside this
    property.) *)
Theorem not_found_covers_caught_failures (clk : clock) (fault : delete_fault)
    (tid new_title : string) (db : database) :
  checkpoints_of tid db ≠ [] → fault ≠ NoFault →
  (api_delete_thread fault tid db).1
  = Build_RenameThreadResponse false (Some "Thread not found") ∧
  api_rename_thread clk true tid new_title db
  = (Build_RenameThreadResponse false (Some "Thread not found"), db) ∧
  checkpoints_of tid (api_delete_thread FaultMetadata tid db).2 = [] ∧
  (api_delete_thread NoFault tid db).1 = Build_RenameThreadResponse true None.
Proof.
  intros Hck Hfault. unfold api_delete_thread, api_rename_thread.
  split_and!.
  - unfold delete_thread.
    destruct fault; try done; by case_bool_decide.
  - unfold rename_thread. by destruct (get_tuple tid db).
  - unfold delete_thread.
    rewrite bool_decide_eq_false_2 by (by destruct (checkpoints_of tid db)).
    unfold checkpoints_of. simpl. apply (filter_out_same ck_thread_id).
  - by rewrite (delete_thread_ok _ _ Hck).
Qed.

Lemma not_found_covers_caught_failures_witness :
  checkpoints_of "t2" Sample.db ≠ [] ∧ FaultMetadata ≠ NoFault ∧
  (api_delete_thread FaultMetadata "t2" Sample.db).1
  = Build_RenameThreadResponse false (Some "Thread not found").
Proof.
  assert (Hck : checkpoints_of "t2" Sample.db ≠ []) by (vm_compute; discriminate).
  assert (Hf : FaultMetadata ≠ NoFault) by discriminate.
  split_and!; [exact Hck|exact Hf|].
  exact (proj1 (not_found_covers_caught_failures Sample.clk FaultMetadata
                  "t2" "x" Sample.db Hck Hf)).
Defined.

(** ** The module-level singletons *)

Section Singletons.

Lemma get_search_agent_cached (g : module_state) (cached : compiled_agent) :
  _agent g = Some cached → get_search_agent None g = (cached, g).
Proof. intros Ha. unfold get_search_agent. by rewrite Ha. Qed.

Lemma get_search_agent_builds (g : module_state) :
  _agent g = None →
  ∃ c g1,
    get_checkpointer g = (c, g1) ∧ _checkpointer g1 = Some c ∧
    get_search_agent None g
    = (CompiledAgent (agents_built g1) c,
       ModuleState (CHECKPOINT_DB_PATH g1) (_metadata_engine g1) (Some c)
                   (Some (CompiledAgent (agents_built g1) c))
                   (savers_created g1) (S (agents_built g1))).
Proof.
  intros Ha. unfold get_search_agent. rewrite Ha.
  destruct (get_checkpointer g) as [c g1] eqn:Hget.
  assert (Hc : _checkpointer g1 = Some c).
  { unfold get_checkpointer in Hget.
    destruct (_checkpointer g) eqn:E; injection Hget as <- <-; done. }
  exists c, g1. split_and!; [done|done|].
  unfold get_checkpointer. simpl. rewrite Hc.
  by rewrite bool_decide_eq_true_2.
Qed.

Lemma get_checkpointer_cached (g : module_state) :
  _checkpointer (get_checkpointer g).2 = Some (get_checkpointer g).1.
Proof. unfold get_checkpointer. by destruct (_checkpointer g) eqn:Hc. Qed.

Lemma one_file_get_checkpointer (g : module_state) :
  one_file g → one_file (get_checkpointer g).2.
Proof.
  intros Hone. unfold get_checkpointer.
  destruct (_checkpointer g) as [c|] eqn:Hc; [exact Hone|].
  destruct Hone as (Hagent & Hsaver & Hengine).
  split_and!; simpl.
  - intros a Ha. specialize (Hagent a Ha). congruence.
  - by intros c [= <-].
  - done.
Qed.

Lemma one_file_get_metadata_engine (g : module_state) :
  one_file g → one_file (get_metadata_engine g).2.
Proof.
  intros Hone. unfold get_metadata_engine.
  destruct (_metadata_engine g) eqn:He; [exact Hone|].
  destruct Hone as (Hagent & Hsaver & Hengine).
  split_and!; simpl; [done|done|]. by intros p [= <-].
Qed.

(** With a checkpointer given, the cache is not consulted. *)
Lemma get_search_agent_given (g : module_state) (c : saver) :
  get_search_agent (Some c) g
  = if bool_decide
         (c = (get_checkpointer
                 (ModuleState (CHECKPOINT_DB_PATH g) (_metadata_engine g)
                    (_checkpointer g) (_agent g) (savers_created g)
                    (S (agents_built g)))).1)
    then (CompiledAgent (agents_built g) c,
          ModuleState (CHECKPOINT_DB_PATH g) (_metadata_engine g)
            (Some c) (Some (CompiledAgent (agents_built g) c))
            (savers_created
               (get_checkpointer
                  (ModuleState (CHECKPOINT_DB_PATH g) (_metadata_engine g)
                     (_checkpointer g) (_agent g) (savers_created g)
                     (S (agents_built g)))).2)
            (S (agents_built g)))
    else (CompiledAgent (agents_built g) c,
          (get_checkpointer
             (ModuleState (CHECKPOINT_DB_PATH g) (_metadata_engine g)
                (_checkpointer g) (_agent g) (savers_created g)
                (S (agents_built g)))).2).
Proof.
  unfold get_search_agent, get_checkpointer.
  destruct (_agent g); simpl; destruct (_checkpointer g); simpl;
    case_bool_decide; simpl; congruence.
Qed.

Lemma one_file_get_search_agent (g : module_state) (checkpointer : option saver) :
  one_file g → one_file (get_search_agent checkpointer g).2.
Proof.
  intros Hone. destruct checkpointer as [c|].
  - rewrite get_search_agent_given.
    set (g2 := ModuleState _ _ _ _ _ (S (agents_built g))).
    assert (H2 : one_file (get_checkpointer g2).2).
    { apply one_file_get_checkpointer. exact Hone. }
    pose proof (get_checkpointer_cached g2) as Hc.
    case_bool_decide as Heq; [|exact H2].
    destruct H2 as (Hagent & Hsaver & Hengine).
    rewrite <- Heq in Hc.
    split_and!; simpl.
    + by intros a [= <-].
    + intros d [= <-]. specialize (Hsaver c Hc).
      unfold get_checkpointer in Hsaver. by destruct (_checkpointer g2).
    + intros p Hp. apply Hone. exact Hp.
  - destruct (_agent g) as [cached|] eqn:Ha.
    + by rewrite (get_search_agent_cached _ _ Ha).
    + destruct (get_search_agent_builds g Ha) as (c & g1 & Hget & Hc & ->).
      assert (H1 : one_file g1).
      { replace g1 with (get_checkpointer g).2 by (by rewrite Hget).
        by apply one_file_get_checkpointer. }
      destruct H1 as (Hagent & Hsaver & Hengine).
      split_and!; simpl; [|intros d [= <-]; by apply Hsaver|done].
      by intros a [= <-].
Qed.

End Singletons.

(** X18. [get_search_agent()] is a singleton: a second call without a
    checkpointer returns the agent of the first and changes nothing, so
    no second model or agent is built; after any such call the agent is
    cached. *)
Theorem search_agent_is_singleton (g : module_state) :
  get_search_agent None (get_search_agent None g).2 = get_search_agent None g ∧
  _agent (get_search_agent None g).2 = Some (get_search_agent None g).1 ∧
  agents_built (get_search_agent None g).2 ≤ S (agents_built g).
Proof.
  destruct (_agent g) as [cached|] eqn:Hagent.
  - rewrite (get_search_agent_cached _ _ Hagent). cbn [fst snd].
    rewrite (get_search_agent_cached _ _ Hagent). split_and!; [done|done|lia].
  - destruct (get_search_agent_builds g Hagent) as (c & g1 & Hget & Hc & ->).
    cbn [fst snd]. split_and!; [by apply get_search_agent_cached|done|].
    unfold get_checkpointer in Hget.
    destruct (_checkpointer g); injection Hget as <- <-; simpl; lia.
Qed.

(** X19. The singletons stay on one file: starting from the module as
    loaded, calls of [get_checkpointer], [get_metadata_engine] and
    [get_search_agent] (with or without a checkpointer) keep the cached
    agent on the current checkpointer, and the checkpointer and the
    metadata engine on the file [CHECKPOINT_DB_PATH]. *)
Theorem singletons_stay_on_one_file (g : module_state) (checkpointer : option saver) :
  one_file g →
  one_file (get_checkpointer g).2 ∧
  one_file (get_metadata_engine g).2 ∧
  one_file (get_search_agent checkpointer g).2.
Proof.
  intros Hone. split_and!.
  - by apply one_file_get_checkpointer.
  - by apply one_file_get_metadata_engine.
  - by apply one_file_get_search_agent.
Qed.

Lemma singletons_stay_on_one_file_witness :
  one_file (module_loaded "checkpoints.sqlite") ∧
  one_file (get_search_agent None (module_loaded "checkpoints.sqlite")).2.
Proof.
  assert (H0 : one_file (module_loaded "checkpoints.sqlite")).
  { split_and!; intros x Hx; discriminate. }
  split; [exact H0|].
  exact (proj2 (proj2 (singletons_stay_on_one_file _ None H0))).
Defined.

(** X20. The set-up of the test fixture ([CHECKPOINT_DB_PATH = temp_db;
    _checkpointer = None]) leaves the cached agent in place: afterwards
    [get_search_agent()] still returns the agent bound to the old file,
    while [get_checkpointer()] returns a new checkpointer on [temp_db],
    so the two differ; a metadata engine created before stays on the
    old file. *)
Theorem fixture_leaves_stale_agent (g : module_state) (cached : compiled_agent)
    (temp_db : string) :
  one_file g → _agent g = Some cached → temp_db ≠ CHECKPOINT_DB_PATH g →
  (get_search_agent None (fixture_setup temp_db g)).1 = cached ∧
  saver_path (agent_checkpointer cached) = Some (CHECKPOINT_DB_PATH g) ∧
  saver_path (get_checkpointer (fixture_setup temp_db g)).1 = Some temp_db ∧
  agent_checkpointer (get_search_agent None (fixture_setup temp_db g)).1
  ≠ (get_checkpointer (fixture_setup temp_db g)).1 ∧
  (is_Some (_metadata_engine g) →
   (get_metadata_engine (fixture_setup temp_db g)).1 = CHECKPOINT_DB_PATH g).
Proof.
  intros (Hagent & Hsaver & Hengine) Hcached Hne.
  pose proof (Hsaver _ (Hagent _ Hcached)) as Hpath.
  unfold get_search_agent, get_checkpointer, get_metadata_engine, fixture_setup.
  simpl. rewrite Hcached. simpl. split_and!; [done|done|done| |].
  - intros Heq. rewrite Heq in Hpath. simpl in Hpath. congruence.
  - intros [p Hp]. rewrite Hp. by apply Hengine.
Qed.

Lemma fixture_leaves_stale_agent_witness :
  one_file Sample2.started ∧
  _agent Sample2.started
  = Some (CompiledAgent 0 (DefaultSaver "checkpoints.sqlite" 0)) ∧
  "tmp.sqlite" ≠ CHECKPOINT_DB_PATH Sample2.started ∧
  (get_search_agent None (fixture_setup "tmp.sqlite" Sample2.started)).1
  = CompiledAgent 0 (DefaultSaver "checkpoints.sqlite" 0) ∧
  (get_checkpointer (fixture_setup "tmp.sqlite" Sample2.started)).1
  = DefaultSaver "tmp.sqlite" 1.
Proof.
  assert (H1 : one_file Sample2.started).
  { split_and!; intros x; vm_compute; intros [= <-]; reflexivity. }
  assert (Hne : "tmp.sqlite" ≠ CHECKPOINT_DB_PATH Sample2.started) by discriminate.
  split_and!; [exact H1|reflexivity|exact Hne| |reflexivity].
  exact (proj1 (fixture_leaves_stale_agent Sample2.started _ "tmp.sqlite"
                  H1 eq_refl Hne)).
Defined.

(** X21. A call of [get_search_agent] with a checkpointer of the
    caller's never uses and never replaces the cached agent: it builds
    a new agent on that checkpointer each time, and as a side effect
    makes sure the default checkpointer exists. *)
Theorem custom_checkpointer_bypasses_cache (g : module_state) (name : nat) :
  one_file g →
  agent_checkpointer (get_search_agent (Some (CustomSaver name)) g).1
  = CustomSaver name ∧
  agent_serial (get_search_agent (Some (CustomSaver name)) g).1 = agents_built g ∧
  _agent (get_search_agent (Some (CustomSaver name)) g).2 = _agent g ∧
  agents_built (get_search_agent (Some (CustomSaver name)) g).2
  = S (agents_built g) ∧
  is_Some (_checkpointer (get_search_agent (Some (CustomSaver name)) g).2).
Proof.
  intros (_ & Hsaver & _). rewrite get_search_agent_given.
  rewrite bool_decide_eq_false_2.
  - unfold get_checkpointer. simpl.
    destruct (_checkpointer g); simpl; split_and!; eauto.
  - unfold get_checkpointer. simpl.
    destruct (_checkpointer g) as [d|] eqn:Hd; simpl; [|done].
    intros <-. by specialize (Hsaver _ eq_refl).
Qed.

Lemma custom_checkpointer_bypasses_cache_witness :
  one_file Sample2.started ∧
  get_search_agent (Some (CustomSaver 7)) Sample2.started
  = (CompiledAgent 1 (CustomSaver 7),
     ModuleState "checkpoints.sqlite" None
       (Some (DefaultSaver "checkpoints.sqlite" 0))
       (Some (CompiledAgent 0 (DefaultSaver "checkpoints.sqlite" 0))) 1 2) ∧
  _agent (get_search_agent (Some (CustomSaver 7)) Sample2.started).2
  = _agent Sample2.started.
Proof.
  assert (H1 : one_file Sample2.started).
  { split_and!; intros x; vm_compute; intros [= <-]; reflexivity. }
  split_and!; [exact H1|reflexivity|].
  exact (proj1 (proj2 (proj2 (custom_checkpointer_bypasses_cache
                                Sample2.started 7 H1)))).
Defined.

(** ** What a false result means for the store *)

(** X22. A false result of [rename_thread] always means that the store
    is unchanged. For [delete_thread] this holds unless the failure was
    in the metadata step, after the checkpoint deletion was
    committed. *)
Theorem false_result_leaves_store (clk : clock) (session_fails : bool)
    (fault : delete_fault) (tid new_title : string) (db : database) :
  fault ≠ FaultMetadata →
  ((rename_thread clk session_fails tid new_title db).1 = false →
   (rename_thread clk session_fails tid new_title db).2 = db) ∧
  ((delete_thread fault tid db).1 = false →
   (delete_thread fault tid db).2 = db).
Proof.
  intros Hfault. split.
  - unfold rename_thread. destruct (get_tuple tid db); [|done].
    by destruct session_fails.
  - unfold delete_thread.
    destruct fault; try done; by case_bool_decide.
Qed.

Lemma false_result_leaves_store_witness :
  FaultDeleteRows ≠ FaultMetadata ∧
  (delete_thread FaultDeleteRows "t2" Sample.db).1 = false ∧
  (delete_thread FaultDeleteRows "t2" Sample.db).2 = Sample.db.
Proof.
  assert (Hf : FaultDeleteRows ≠ FaultMetadata) by discriminate.
  split_and!; [exact Hf|reflexivity|].
  exact (proj2 (false_result_leaves_store Sample.clk false FaultDeleteRows
                  "t2" "x" Sample.db Hf) eq_refl).
Defined.

(** X23. The primary key of the metadata table is kept by every write:
    after [rename_thread] or [delete_thread], whatever their outcome,
    no two metadata records have the same thread id. *)
Theorem writes_keep_primary_key (clk : clock) (session_fails : bool)
    (fault : delete_fault) (tid new_title : string) (db : database) :
  primary_key db →
  primary_key (rename_thread clk session_fails tid new_title db).2 ∧
  primary_key (delete_thread fault tid db).2.
Proof.
  intros Hpk. split.
  - by apply rename_thread_primary_key.
  - by apply delete_thread_primary_key.
Qed.

Lemma writes_keep_primary_key_witness :
  primary_key Sample.db ∧
  primary_key (rename_thread Sample.clk false "t1" "First" Sample.db).2.
Proof.
  assert (Hpk : primary_key Sample.db).
  { unfold primary_key. simpl. apply NoDup_singleton. }
  split; [exact Hpk|].
  exact (proj1 (writes_keep_primary_key Sample.clk false NoFault "t1" "First"
                  Sample.db Hpk)).
Defined.
